(** * Engagement-state synchronisation of the media feed

    A shallow embedding of the like/follow synchronisation code of the media
    page ([src/pages/Media.tsx], component [Media]) and of the data hook
    [useMediaData] (function [fetchMediaItems]), followed by the properties
    the specification states about them.

    Conventions of the embedding.
    - A JavaScript number that holds a database [integer] is a [Z]; an
      optional (or nullable) property is an [option]; [a || b] on numbers
      takes [b] when [a] is [undefined], [null] or [0].
    - [Map<string, number>] is a [gmap string Z], [Set<string>] a
      [gset string]; [forEach] is a left fold.
    - An [async] function is cut at its [await]s: the part that runs
      synchronously returns the new component state, the continuation that
      waits for the backend and the effects it performed; a continuation is
      resumed with the backend's answer.
    - The supabase client resolves every request to [{ data, error }] where
      [data] is [null] whenever [error] is set; it does not reject. *)

From Stdlib Require Import ZArith QArith String List Bool Lia.
From stdpp Require Import base option list strings gmap.

Local Open Scope string_scope.
Local Open Scope list_scope.
Local Open Scope Z_scope.

(** ** JavaScript helpers *)

Module Js.

(** [a || d] where [a : number | undefined] and [d : number]. *)
Definition or_num (a : option Z) (d : Z) : Z :=
  match a with
  | Some n => if n =? 0 then d else n
  | None => d
  end.

(** Truthiness of [b : boolean | undefined]. *)
Definition truthy (b : option bool) : bool :=
  match b with
  | Some v => v
  | None => false
  end.

(** Truthiness of [s : string | null]: the empty string is falsy. *)
Definition truthy_str (s : option string) : bool :=
  match s with
  | Some v => negb (String.eqb v "")
  | None => false
  end.

(** [a || []] on arrays. *)
Definition or_nil {A} (a : option (list A)) : list A :=
  match a with
  | Some l => l
  | None => []
  end.

(** The answer of the supabase client to one request: [{ data, error }]. *)
Inductive Response (A : Type) : Type :=
| Resolved (data : option A)
| Failed (message : string).
Arguments Resolved {A} data.
Arguments Failed {A} message.

Definition data {A} (r : Response A) : option A :=
  match r with
  | Resolved d => d
  | Failed _ => None
  end.

Definition error {A} (r : Response A) : option string :=
  match r with
  | Resolved _ => None
  | Failed e => Some e
  end.

End Js.

(** ** The media page: [src/pages/Media.tsx] *)

Module MediaPage.

(** [interface MediaItem] *)
Record MediaItem : Type := mkMediaItem {
  id : string;
  title : string;
  creator_name : string;
  thumbnail_url : string;
  duration : option string;
  read_time : option string;
  category : string;
  type : string;
  content_type : string;
  description : string;
  price : option Q;
  rating : Q;
  is_premium : bool;
  views_count : Z;
  plays_count : Z;
  sales_count : Z;
  likes_count : option Z;
  is_liked : option bool;
  is_following : option bool
}.

(** [{ ...m, likes_count: c, is_liked: l, is_following: f }] *)
Definition with_engagement (m : MediaItem)
    (c : option Z) (l f : option bool) : MediaItem :=
  {| id := id m; title := title m; creator_name := creator_name m;
     thumbnail_url := thumbnail_url m; duration := duration m;
     read_time := read_time m; category := category m; type := type m;
     content_type := content_type m; description := description m;
     price := price m; rating := rating m; is_premium := is_premium m;
     views_count := views_count m; plays_count := plays_count m;
     sales_count := sales_count m;
     likes_count := c; is_liked := l; is_following := f |}.

(** Rows of [media_likes] as selected by [.select('media_id')] and of
    [creator_follows] as selected by [.select('creator_name')]. *)
Record LikeRow : Type := { media_id : string }.
Record FollowRow : Type := { follow_creator_name : string }.

(** The signed-in user of the auth context; only [user.id] is read. *)
Record User : Type := { user_id : string }.

(** *** Enrichment (lines 137-151 of [fetchMediaContent]) *)

(** One iteration of
    [allLikes.forEach(like => { const count = map.get(like.media_id) || 0;
                                map.set(like.media_id, count + 1) })]. *)
Definition count_like (m : gmap string Z) (like : LikeRow) : gmap string Z :=
  let count := Js.or_num (m !! media_id like) 0 in
  <[media_id like := count + 1]> m.

Definition likesCountMap (allLikes : option (list LikeRow)) : gmap string Z :=
  foldl count_like ∅ (Js.or_nil allLikes).

Definition userLikesSet (userLikes : list LikeRow) : gset string :=
  list_to_set (map media_id userLikes).

Definition userFollowsSet (userFollows : list FollowRow) : gset string :=
  list_to_set (map follow_creator_name userFollows).

Definition enrich_item (counts : gmap string Z) (liked followed : gset string)
    (item : MediaItem) : MediaItem :=
  with_engagement item
    (Some (Js.or_num (counts !! id item) (Js.or_num (likes_count item) 0)))
    (Some (bool_decide (id item ∈ liked)))
    (Some (bool_decide (creator_name item ∈ followed))).

Definition enrich (mediaData : list MediaItem) (allLikes : option (list LikeRow))
    (userLikes : list LikeRow) (userFollows : list FollowRow) : list MediaItem :=
  map (enrich_item (likesCountMap allLikes) (userLikesSet userLikes)
                   (userFollowsSet userFollows))
      mediaData.

(** *** Component state

    [mediaContent], [loading] and [error] are [useState] cells,
    [fetchInProgress] is [fetchInProgressRef.current].  State setters are
    applied in call order. *)
Record Store : Type := mkStore {
  mediaContent : list MediaItem;
  loading : bool;
  error : option string;
  fetchInProgress : bool
}.

Definition setMediaContent (v : list MediaItem) (st : Store) : Store :=
  mkStore v (loading st) (error st) (fetchInProgress st).
Definition setLoading (v : bool) (st : Store) : Store :=
  mkStore (mediaContent st) v (error st) (fetchInProgress st).
Definition setError (v : option string) (st : Store) : Store :=
  mkStore (mediaContent st) (loading st) v (fetchInProgress st).
Definition setFetchInProgress (v : bool) (st : Store) : Store :=
  mkStore (mediaContent st) (loading st) (error st) v.

(** The state of a freshly mounted component. *)
Definition initialStore : Store := mkStore [] true None false.

(** *** Effects visible outside the component *)
Inductive Request : Type :=
| SelectMedia (activeTab : string)
| SelectAllLikes
| SelectUserLikes (uid : string)
| SelectUserFollows (uid : string)
| DeleteLike (mediaId uid : string)
| InsertLike (mediaId uid : string)
| DeleteFollow (creatorName uid : string)
| InsertFollow (creatorName uid : string).

Inductive Effect : Type :=
| Backend (r : Request)
| ConsoleError (msg : string)
| Alert (msg : string)
| Navigate (path : string).

Definition is_viewer_scoped (e : Effect) : bool :=
  match e with
  | Backend (SelectUserLikes _) | Backend (SelectUserFollows _) => true
  | _ => false
  end.

Definition is_durable_write (e : Effect) : bool :=
  match e with
  | Backend (DeleteLike _ _) | Backend (InsertLike _ _)
  | Backend (DeleteFollow _ _) | Backend (InsertFollow _ _) => true
  | _ => false
  end.

Definition is_media_read (e : Effect) : bool :=
  match e with
  | Backend (SelectMedia _) => true
  | _ => false
  end.

(** What the backend answers to a read. *)
Inductive Answer : Type :=
| MediaRows (r : Js.Response (list MediaItem))
| LikeRows (r : Js.Response (list LikeRow))
| FollowRows (r : Js.Response (list FollowRow)).

(** *** [fetchMediaContent] *)

(** The points at which [fetchMediaContent] is suspended, with the locals
    that are live there ([user] and [activeTab] are captured by the
    closure). *)
Inductive FetchCont : Type :=
| AwaitMedia (user : option User)
| AwaitAllLikes (user : option User) (mediaData : list MediaItem)
| AwaitUserLikes (u : User) (mediaData : list MediaItem)
    (allLikes : option (list LikeRow))
| AwaitUserFollows (u : User) (mediaData : list MediaItem)
    (allLikes : option (list LikeRow)) (userLikes : list LikeRow).

(** [catch (error) { ... }] followed by [finally { ... }]. *)
Definition fetch_catch (st : Store) : Store * list Effect :=
  (setMediaContent []
     (setError (Some "Failed to load media content. Please try again.") st),
   [ConsoleError "Error fetching media:"]).

Definition fetch_finally (st : Store) : Store :=
  setLoading false (setFetchInProgress false st).

(** Lines 137-153, then [finally]. *)
Definition fetch_enrich (mediaData : list MediaItem)
    (allLikes : option (list LikeRow)) (userLikes : list LikeRow)
    (userFollows : list FollowRow) (st : Store) : Store :=
  fetch_finally
    (setMediaContent (enrich mediaData allLikes userLikes userFollows) st).

(** The call, up to the first [await] (lines 87-101). *)
Definition fetchMediaContent (user : option User) (activeTab : string)
    (st : Store) : Store * option FetchCont * list Effect :=
  if fetchInProgress st then (st, None, [])
  else
    (setError None (setLoading true (setFetchInProgress true st)),
     Some (AwaitMedia user),
     [Backend (SelectMedia activeTab)]).

(** Resuming after an [await]. An answer of the wrong shape for the request
    that is pending leaves the call suspended. *)
Definition fetch_resume (k : FetchCont) (a : Answer) (st : Store)
    : Store * option FetchCont * list Effect :=
  match k, a with
  | AwaitMedia user, MediaRows r =>
      match Js.error r with
      | Some _ =>
          let '(st1, eff) := fetch_catch st in
          (fetch_finally st1, None, eff)
      | None =>
          match Js.data r with
          | Some (item :: rest) =>
              (st, Some (AwaitAllLikes user (item :: rest)),
               [Backend SelectAllLikes])
          | _ => (fetch_finally (setMediaContent [] st), None, [])
          end
      end
  | AwaitAllLikes user mediaData, LikeRows r =>
      let eff :=
        match Js.error r with
        | Some _ => [ConsoleError "Error fetching likes:"]
        | None => []
        end in
      match user with
      | Some u =>
          (st, Some (AwaitUserLikes u mediaData (Js.data r)),
           eff ++ [Backend (SelectUserLikes (user_id u))])
      | None => (fetch_enrich mediaData (Js.data r) [] [] st, None, eff)
      end
  | AwaitUserLikes u mediaData allLikes, LikeRows r =>
      let userLikes :=
        match Js.error r with
        | None => Js.or_nil (Js.data r)
        | Some _ => []
        end in
      (st, Some (AwaitUserFollows u mediaData allLikes userLikes),
       [Backend (SelectUserFollows (user_id u))])
  | AwaitUserFollows u mediaData allLikes userLikes, FollowRows r =>
      let userFollows :=
        match Js.error r with
        | None => Js.or_nil (Js.data r)
        | Some _ => []
        end in
      (fetch_enrich mediaData allLikes userLikes userFollows st, None, [])
  | _, _ => (st, Some k, [])
  end.

(** *** [handleLike] and [handleFollow]

    Both read [mediaContent] and [user] from the closure of the render that
    created the handler ([captured] below), while the updater passed to
    [setMediaContent] runs on the state current at the call. *)

Definition like_patch (mediaId : string) (wasLiked : bool) (m : MediaItem)
    : MediaItem :=
  if bool_decide (id m = mediaId) then
    with_engagement m
      (Some (if wasLiked
             then Z.max 0 (Js.or_num (likes_count m) 0 - 1)
             else Js.or_num (likes_count m) 0 + 1))
      (Some (negb wasLiked))
      (is_following m)
  else m.

Definition follow_patch (creatorName : string) (wasFollowing : bool)
    (m : MediaItem) : MediaItem :=
  if bool_decide (creator_name m = creatorName) then
    with_engagement m (likes_count m) (is_liked m) (Some (negb wasFollowing))
  else m.

(** A handler suspended on its durable write. *)
Inductive WriteCont : Type :=
| LikeWrite (previousContent : list MediaItem)
| FollowWrite (previousContent : list MediaItem).

Definition handleLike (user : option User) (captured : list MediaItem)
    (mediaId : string) (st : Store)
    : Store * option WriteCont * list Effect :=
  match user with
  | None =>
      (st, None, [Alert "Please sign in to like content."; Navigate "/signin"])
  | Some u =>
      match find (fun m => bool_decide (id m = mediaId)) captured with
      | None => (st, None, [])
      | Some item =>
          let wasLiked := Js.truthy (is_liked item) in
          (setMediaContent (map (like_patch mediaId wasLiked) (mediaContent st)) st,
           Some (LikeWrite captured),
           [Backend (if wasLiked then DeleteLike mediaId (user_id u)
                     else InsertLike mediaId (user_id u))])
      end
  end.

Definition handleFollow (user : option User) (captured : list MediaItem)
    (creatorName : string) (st : Store)
    : Store * option WriteCont * list Effect :=
  match user with
  | None =>
      (st, None,
       [Alert "Please sign in to follow creators."; Navigate "/signin"])
  | Some u =>
      match find (fun m => bool_decide (creator_name m = creatorName)) captured with
      | None => (st, None, [])
      | Some item =>
          let wasFollowing := Js.truthy (is_following item) in
          (setMediaContent
             (map (follow_patch creatorName wasFollowing) (mediaContent st)) st,
           Some (FollowWrite captured),
           [Backend (if wasFollowing then DeleteFollow creatorName (user_id u)
                     else InsertFollow creatorName (user_id u))])
      end
  end.

(** Resuming after the durable write: [if (error) throw error] and the
    [catch] block. *)
Definition write_resume (k : WriteCont) (r : Js.Response unit) (st : Store)
    : Store * list Effect :=
  match Js.error r with
  | None => (st, [])
  | Some _ =>
      match k with
      | LikeWrite previousContent =>
          (setError (Some "Failed to update like. Please try again.")
             (setMediaContent previousContent st),
           [ConsoleError "Error toggling like:"])
      | FollowWrite previousContent =>
          (setError (Some "Failed to update follow status. Please try again.")
             (setMediaContent previousContent st),
           [ConsoleError "Error toggling follow:"])
      end
  end.

(** *** The event loop

    One mounted component: its state, the suspended calls of
    [fetchMediaContent], the handlers suspended on a durable write, and the
    effects performed so far, oldest first. *)
Record World : Type := mkWorld {
  store : Store;
  fetches : list FetchCont;
  writes : list WriteCont;
  trace : list Effect
}.

Definition initialWorld : World := mkWorld initialStore [] [] [].

Inductive Event : Type :=
| CallFetch (user : option User) (activeTab : string)
    (* the effect on [activeTab, user] *)
| RealtimeChange (user : option User) (activeTab : string)
    (* a [postgres_changes] callback of either subscription *)
| SettleFetch (i : nat) (a : Answer)
    (* the backend answers the [i]-th suspended fetch *)
| ClickLike (user : option User) (mediaId : string)
| ClickFollow (user : option User) (creatorName : string)
| SettleWrite (i : nat) (r : Js.Response unit).
    (* the backend answers the [i]-th suspended durable write *)

Definition step (w : World) (e : Event) : World :=
  match e with
  | CallFetch user activeTab =>
      let '(st, k, eff) := fetchMediaContent user activeTab (store w) in
      mkWorld st (fetches w ++ option_list k) (writes w) (trace w ++ eff)
  | RealtimeChange user activeTab =>
      if fetchInProgress (store w) then w
      else
        let '(st, k, eff) := fetchMediaContent user activeTab (store w) in
        mkWorld st (fetches w ++ option_list k) (writes w) (trace w ++ eff)
  | SettleFetch i a =>
      match fetches w !! i with
      | None => w
      | Some k =>
          let '(st, k', eff) := fetch_resume k a (store w) in
          mkWorld st
            (match k' with
             | Some k2 => <[i:=k2]> (fetches w)
             | None => delete i (fetches w)
             end)
            (writes w) (trace w ++ eff)
      end
  | ClickLike user mediaId =>
      (* the handler of the render that shows the current state *)
      let '(st, k, eff) :=
        handleLike user (mediaContent (store w)) mediaId (store w) in
      mkWorld st (fetches w) (writes w ++ option_list k) (trace w ++ eff)
  | ClickFollow user creatorName =>
      let '(st, k, eff) :=
        handleFollow user (mediaContent (store w)) creatorName (store w) in
      mkWorld st (fetches w) (writes w ++ option_list k) (trace w ++ eff)
  | SettleWrite i r =>
      match writes w !! i with
      | None => w
      | Some k =>
          let '(st, eff) := write_resume k r (store w) in
          mkWorld st (fetches w) (delete i (writes w)) (trace w ++ eff)
      end
  end.

Definition run (w : World) (es : list Event) : World := foldl step w es.

(** Number of content reads issued so far. *)
Definition media_reads (w : World) : nat :=
  length (List.filter is_media_read (trace w)).

End MediaPage.

(** ** The data hook [useMediaData] *)

Module UseMediaData.

(** [interface MediaItem] of [lib/supabase.ts]; [like_count] is a nullable
    column of [media_items]. *)
Record MediaItem : Type := mkMediaItem {
  id : string;
  title : string;
  creator : string;
  thumbnail_url : string;
  duration : option string;
  read_time : option string;
  category : string;
  type : string;
  description : option string;
  views_count : Z;
  like_count : option Z;
  is_liked : option bool;
  is_followed : option bool;
  created_at : string;
  updated_at : string
}.

(** [{ ...item, like_count: c, is_liked: l, is_followed: f }] *)
Definition with_engagement (m : MediaItem)
    (c : option Z) (l f : option bool) : MediaItem :=
  {| id := id m; title := title m; creator := creator m;
     thumbnail_url := thumbnail_url m; duration := duration m;
     read_time := read_time m; category := category m; type := type m;
     description := description m; views_count := views_count m;
     like_count := c; is_liked := l; is_followed := f;
     created_at := created_at m; updated_at := updated_at m |}.

(** Rows selected by ['media_id, user_id'] and ['creator_name, follower_id']. *)
Record LikeRow : Type := { media_id : string; user_id : string }.
Record FollowRow : Type := { creator_name : string; follower_id : string }.

(** [userId && row_id === userId] *)
Definition is_viewer (userId : option string) (row_id : string) : bool :=
  Js.truthy_str userId && bool_decide (userId = Some row_id).

(** One iteration of [likesData.forEach]. The keys of [likeCounts] are row
    identifiers (uuids), none of which is a property of [Object.prototype]. *)
Definition count_like (userId : option string)
    (acc : gmap string Z * gset string) (like : LikeRow)
    : gmap string Z * gset string :=
  let likeCounts := <[media_id like :=
                        Js.or_num (acc.1 !! media_id like) 0 + 1]> acc.1 in
  if is_viewer userId (user_id like)
  then (likeCounts, {[media_id like]} ∪ acc.2)
  else (likeCounts, acc.2).

Definition scan_likes (userId : option string)
    (likesData : option (list LikeRow)) : gmap string Z * gset string :=
  match likesData with
  | Some rows => foldl (count_like userId) (∅, ∅) rows
  | None => (∅, ∅)
  end.

Definition add_follow (userId : option string) (acc : gset string)
    (follow : FollowRow) : gset string :=
  if bool_decide (userId = Some (follower_id follow))
  then {[creator_name follow]} ∪ acc
  else acc.

Definition scan_follows (userId : option string)
    (followsData : option (list FollowRow)) : gset string :=
  match followsData with
  | Some rows =>
      if Js.truthy_str userId then foldl (add_follow userId) ∅ rows else ∅
  | None => ∅
  end.

Definition enrich_item (likeCounts : gmap string Z)
    (userLikes userFollows : gset string) (item : MediaItem) : MediaItem :=
  with_engagement item
    (Some (Js.or_num (likeCounts !! id item) (Js.or_num (like_count item) 0)))
    (Some (bool_decide (id item ∈ userLikes)))
    (Some (bool_decide (creator item ∈ userFollows))).

Definition enrich (userId : option string) (items : list MediaItem)
    (likesData : option (list LikeRow))
    (followsData : option (list FollowRow)) : list MediaItem :=
  let '(likeCounts, userLikes) := scan_likes userId likesData in
  map (enrich_item likeCounts userLikes (scan_follows userId followsData))
      items.

(** The hook's state. *)
Record Store : Type := mkStore {
  mediaItems : list MediaItem;
  loading : bool;
  error : option string
}.

Definition setMediaItems (v : list MediaItem) (st : Store) : Store :=
  mkStore v (loading st) (error st).
Definition setLoading (v : bool) (st : Store) : Store :=
  mkStore (mediaItems st) v (error st).
Definition setError (v : option string) (st : Store) : Store :=
  mkStore (mediaItems st) (loading st) v.

Inductive Request : Type :=
| SelectItems (type : string)
| SelectLikes
| SelectFollows.

Inductive Effect : Type :=
| Backend (r : Request)
| ConsoleError (msg : string).

Inductive Answer : Type :=
| ItemRows (r : Js.Response (list MediaItem))
| LikeRows (r : Js.Response (list LikeRow))
| FollowRows (r : Js.Response (list FollowRow)).

Inductive FetchCont : Type :=
| AwaitItems (userId : option string)
| AwaitLikes (userId : option string) (items : list MediaItem)
| AwaitFollows (userId : option string) (items : list MediaItem)
    (likesData : option (list LikeRow)).

(** [fetchMediaItems], up to the first [await]. *)
Definition fetchMediaItems (type : string) (userId : option string)
    (st : Store) : Store * option FetchCont * list Effect :=
  (setError None (setLoading true st),
   Some (AwaitItems userId),
   [Backend (SelectItems type)]).

Definition fetch_resume (k : FetchCont) (a : Answer) (st : Store)
    : Store * option FetchCont * list Effect :=
  match k, a with
  | AwaitItems userId, ItemRows r =>
      match Js.error r with
      | Some _ =>
          (setLoading false
             (setMediaItems [] (setError (Some "Failed to load media items") st)),
           None, [ConsoleError "Error fetching media items:"])
      | None =>
          match Js.data r with
          | Some (item :: rest) =>
              (st, Some (AwaitLikes userId (item :: rest)), [Backend SelectLikes])
          | _ => (setLoading false (setMediaItems [] st), None, [])
          end
      end
  | AwaitLikes userId items, LikeRows r =>
      (st, Some (AwaitFollows userId items (Js.data r)), [Backend SelectFollows])
  | AwaitFollows userId items likesData, FollowRows r =>
      (setLoading false
         (setMediaItems (enrich userId items likesData (Js.data r)) st),
       None, [])
  | _, _ => (st, Some k, [])
  end.

End UseMediaData.

(** ** Notions the properties are stated with *)

Module Props.

(** Number of edges of [rows] whose key is [k]. *)
Definition edge_count {A} (key : A → string) (k : string) (rows : list A) : Z :=
  Z.of_nat (length (filter (fun row => key row = k) rows)).

(** The like count the enrichment yields for an item whose stored counter
    is [stored] and that [n] like edges reference. *)
Definition shown_count (n : Z) (stored : option Z) : Z :=
  if decide (n = 0) then Js.or_num stored 0 else n.

(** A content row as the backend delivers it, with the given identifier,
    creator and stored counter. *)
Definition page_row (i c : string) (stored : option Z) : MediaPage.MediaItem :=
  MediaPage.mkMediaItem i "t" c "" None None "movie" "stream" "video" ""
    None (0 # 1) false 0 0 0 stored None None.

(** An item of the page's collection. *)
Definition page_item (i c : string) (n : Z) (liked following : bool)
    : MediaPage.MediaItem :=
  MediaPage.with_engagement (page_row i c None)
    (Some n) (Some liked) (Some following).

Definition hook_row (i c : string) (stored : option Z)
    : UseMediaData.MediaItem :=
  UseMediaData.mkMediaItem i "t" c "" None None "movie" "stream" None 0
    stored None None "" "".

(** The Fetch Guard's invariant: the marker is set exactly while one call
    of [fetchMediaContent] is suspended, and never more than one is. *)
Definition guard_inv (w : MediaPage.World) : Prop :=
  if MediaPage.fetchInProgress (MediaPage.store w)
  then length (MediaPage.fetches w) = 1%nat
  else MediaPage.fetches w = [].

(** Events that ask for a fetch. *)
Definition is_fetch_trigger (e : MediaPage.Event) : bool :=
  match e with
  | MediaPage.CallFetch _ _ | MediaPage.RealtimeChange _ _ => true
  | _ => false
  end.

(** The backend answering, in order, the reads of the one suspended fetch:
    content, all likes, the viewer's likes, the viewer's follows.  Answers
    that arrive when no fetch is suspended any more are dropped by [step]. *)
Definition answers (mr : Js.Response (list MediaPage.MediaItem))
    (lr ulr : Js.Response (list MediaPage.LikeRow))
    (ufr : Js.Response (list MediaPage.FollowRow)) : list MediaPage.Event :=
  [MediaPage.SettleFetch 0 (MediaPage.MediaRows mr);
   MediaPage.SettleFetch 0 (MediaPage.LikeRows lr);
   MediaPage.SettleFetch 0 (MediaPage.LikeRows ulr);
   MediaPage.SettleFetch 0 (MediaPage.FollowRows ufr)].

(** The rows a viewer-scoped read contributes: [data || []] unless the read
    reported an error. *)
Definition rows_of {A} (r : Js.Response (list A)) : list A :=
  match Js.error r with
  | None => Js.or_nil (Js.data r)
  | Some _ => []
  end.

(** The page's items carry the follow relation [follows] of the viewer. *)
Definition follows_agree (follows : string → bool)
    (items : list MediaPage.MediaItem) : Prop :=
  Forall (fun m => MediaPage.is_following m =
                   Some (follows (MediaPage.creator_name m))) items.

(** The follow relation after the viewer toggled [creatorName]. *)
Definition toggle_follow (follows : string → bool) (creatorName : string)
    : string → bool :=
  fun c => if bool_decide (c = creatorName) then negb (follows creatorName)
           else follows c.

(** The lookups of [handleLike] and [handleFollow]. *)
Definition find_id (mediaId : string) (items : list MediaPage.MediaItem)
    : option MediaPage.MediaItem :=
  find (fun m => bool_decide (MediaPage.id m = mediaId)) items.

Definition find_creator (creatorName : string)
    (items : list MediaPage.MediaItem) : option MediaPage.MediaItem :=
  find (fun m => bool_decide (MediaPage.creator_name m = creatorName)) items.

(** Items of one creator carry one follow flag. *)
Definition same_creator_agree (items : list MediaPage.MediaItem) : Prop :=
  ∀ m1 m2, m1 ∈ items → m2 ∈ items →
    MediaPage.creator_name m1 = MediaPage.creator_name m2 →
    MediaPage.is_following m1 = MediaPage.is_following m2.


(** The collection a suspended handler would restore. *)
Definition snapshot (k : MediaPage.WriteCont) : list MediaPage.MediaItem :=
  match k with
  | MediaPage.LikeWrite previousContent => previousContent
  | MediaPage.FollowWrite previousContent => previousContent
  end.

(** The collection and every snapshot held by a suspended handler have one
    follow flag per creator. *)
Definition follow_inv (w : MediaPage.World) : Prop :=
  same_creator_agree (MediaPage.mediaContent (MediaPage.store w)) ∧
  Forall (fun k => same_creator_agree (snapshot k)) (MediaPage.writes w).

End Props.

Import Props.

(** ** The rest of the media page: view and remaining handlers *)

Module MediaView.

Import MediaPage.

(** [handleSubscribe] (lines 259-266). *)
Definition handleSubscribe (user : option User) : list Effect :=
  match user with
  | None => [Alert "Please sign in to subscribe."; Navigate "/signin"]
  | Some _ => [Alert "Premium subscription activated! Enjoy exclusive content."]
  end.

(** The [onClick] of the Retry button (lines 334-339):
    [setError(null); fetchMediaContent()]. *)
Definition clickRetry (user : option User) (activeTab : string) (st : Store)
    : Store * option FetchCont * list Effect :=
  fetchMediaContent user activeTab (setError None st).

(** The Retry click on the event loop. *)
Definition retry (user : option User) (activeTab : string) (w : World) : World :=
  let '(st, k, eff) := clickRetry user activeTab (store w) in
  mkWorld st (fetches w ++ option_list k) (writes w) (trace w ++ eff).

(** [s.includes(sub)]: [sub] occurs in [s] as a contiguous run. *)
Fixpoint includes (s sub : string) : bool :=
  String.prefix sub s ||
  match s with
  | EmptyString => false
  | String _ rest => includes rest sub
  end.

Section Filter.

(** [String.prototype.toLowerCase], a built-in of the language. *)
Variable toLowerCase : string → string.

(** The predicate of [filteredContent] (lines 268-276); [description] has the
    type the interface gives it. *)
Definition matches_filter (selectedCategory searchQuery : string)
    (item : MediaItem) : bool :=
  let matchesCategory :=
    bool_decide (selectedCategory = "all") ||
    bool_decide (category item = selectedCategory) in
  let matchesSearch :=
    includes (toLowerCase (title item)) (toLowerCase searchQuery) ||
    includes (toLowerCase (creator_name item)) (toLowerCase searchQuery) ||
    includes (toLowerCase (description item)) (toLowerCase searchQuery) in
  matchesCategory && matchesSearch.

Definition filteredContent (selectedCategory searchQuery : string)
    (mediaContent : list MediaItem) : list MediaItem :=
  List.filter (matches_filter selectedCategory searchQuery) mediaContent.

(** What the page renders below the filters (lines 331-351 and 488-500):
    the error banner, the spinner or the grid, and the empty-state panel. *)
Definition shows_error (st : Store) : bool := Js.truthy_str (error st).
Definition shows_spinner (st : Store) : bool := loading st.
Definition shows_empty (selectedCategory searchQuery : string) (st : Store)
    : bool :=
  negb (loading st) &&
  (length (filteredContent selectedCategory searchQuery (mediaContent st))
   =? 0)%nat.

End Filter.

(** [item.likes_count || 0], the count the card displays. *)
Definition displayed_count (item : MediaItem) : Z :=
  Js.or_num (likes_count item) 0.

(** The names of the two realtime channels (lines 64 and 73). *)
Definition likes_channel (activeTab : string) : string :=
  "media_likes_changes_" ++ activeTab.
Definition follows_channel (activeTab : string) : string :=
  "creator_follows_changes_" ++ activeTab.

(** The channels the subscription effect opens (lines 60-85): none without
    a signed-in user. *)
Definition subscriptions (user : option User) (activeTab : string)
    : list string :=
  match user with
  | None => []
  | Some _ => [likes_channel activeTab; follows_channel activeTab]
  end.

End MediaView.

(** ** The event loop of the hook *)

Module HookLoop.

Import UseMediaData.

(** The hook's state, the suspended calls of [fetchMediaItems] and the
    effects so far.  The hook keeps no in-flight marker. *)
Record World : Type := mkWorld {
  store : Store;
  fetches : list FetchCont;
  trace : list Effect
}.

Definition initialStore : Store := mkStore [] true None.
Definition initialWorld : World := mkWorld initialStore [] [].

Inductive Event : Type :=
| Call (type : string) (userId : option string)
    (* the effect on [type, userId], a realtime callback, or [refetch] *)
| Settle (i : nat) (a : Answer).
    (* the backend answers the [i]-th suspended fetch *)

Definition step (w : World) (e : Event) : World :=
  match e with
  | Call type userId =>
      let '(st, k, eff) := fetchMediaItems type userId (store w) in
      mkWorld st (fetches w ++ option_list k) (trace w ++ eff)
  | Settle i a =>
      match fetches w !! i with
      | None => w
      | Some k =>
          let '(st, k', eff) := fetch_resume k a (store w) in
          mkWorld st
            (match k' with
             | Some k2 => <[i:=k2]> (fetches w)
             | None => delete i (fetches w)
             end)
            (trace w ++ eff)
      end
  end.

Definition run (w : World) (es : list Event) : World := foldl step w es.

Definition is_item_read (e : Effect) : bool :=
  match e with
  | Backend (SelectItems _) => true
  | _ => false
  end.

Definition item_reads (w : World) : nat :=
  length (List.filter is_item_read (trace w)).

Definition is_call (e : Event) : bool :=
  match e with
  | Call _ _ => true
  | Settle _ _ => false
  end.

End HookLoop.

(** ** The auth context: [src/context/AuthContext.tsx]

    The source of the [user] the media page reads.  The functions here wrap
    their requests in [try]/[catch], so an [await] is given either the
    client's answer or a rejection.  Each function is a function of the
    outcomes of its [await]s, in order, and returns the final state, the
    effects and the error it throws, if any. *)

Module Auth.

Inductive AccountType : Type := creator | member.
Inductive Tier : Type := free | premium | professional | elite.

(** [interface Profile] *)
Record Profile : Type := mkProfile {
  id : string;
  name : string;
  email : string;
  account_type : AccountType;
  tier : Tier;
  loyalty_points : Z;
  avatar_url : option string;
  bio : option string;
  joined_date : string;
  last_login : string
}.

(** Of [Session] only the presence is observed here. *)
Record Session : Type := { session_user_id : string }.

(** [data] of [signInWithPassword]: [{ user, session }]. *)
Record AuthData : Type := { auth_user_id : option string }.

Record State : Type := mkState {
  user : option Profile;
  session : option Session;
  loading : bool
}.

Definition setUser (v : option Profile) (st : State) : State :=
  mkState v (session st) (loading st).
Definition setSession (v : option Session) (st : State) : State :=
  mkState (user st) v (loading st).

(** How an [await] ends. *)
Inductive Settled (A : Type) : Type :=
| Fulfilled (r : Js.Response A)
| Rejected (reason : string).
Arguments Fulfilled {A} r.
Arguments Rejected {A} reason.

(** The error an [await] followed by [if (error) throw error] raises. *)
Definition raised {A} (o : Settled A) : option string :=
  match o with
  | Fulfilled r => Js.error r
  | Rejected reason => Some reason
  end.

Section WithUpdates.

(** [Partial<Profile>], passed through to the backend unread. *)
Variable Updates : Type.

Inductive Request : Type :=
| SelectProfile (userId : string)
| UpdateLastLogin (userId : string)
| UpdateProfile (userId : string) (updates : Updates)
| SignInWithPassword (email password : string)
| SignOut.

Inductive Effect : Type :=
| Backend (r : Request)
| ConsoleError (msg : string).

(** [fetchProfile] (lines 49-67): the profile, or [null]. *)
Definition fetchProfile (userId : string) (o : Settled Profile)
    : option Profile * list Effect :=
  match raised o with
  | Some _ =>
      (None, [Backend (SelectProfile userId);
              ConsoleError "Error fetching profile:"])
  | None =>
      (match o with Fulfilled r => Js.data r | Rejected _ => None end,
       [Backend (SelectProfile userId)])
  end.

(** [updateLastLogin] (lines 69-78): the answer is not inspected; the
    timestamp it sends is left out. *)
Definition updateLastLogin (userId : string) (o : Settled unit) : list Effect :=
  Backend (UpdateLastLogin userId) ::
  match o with
  | Rejected _ => [ConsoleError "Error updating last login:"]
  | Fulfilled _ => []
  end.

(** [signOut] (lines 187-197). *)
Definition signOut (o : Settled unit) (st : State)
    : State * list Effect * option string :=
  match raised o with
  | Some e => (st, [Backend SignOut; ConsoleError "Error signing out:"], Some e)
  | None => (setSession None (setUser None st), [Backend SignOut], None)
  end.

(** [updateProfile] (lines 199-216). *)
Definition updateProfile (updates : Updates) (o : Settled unit)
    (reread : Settled Profile) (st : State)
    : State * list Effect * option string :=
  match user st with
  | None => (st, [], None)
  | Some u =>
      match raised o with
      | Some e =>
          (st, [Backend (UpdateProfile (id u) updates);
                ConsoleError "Error updating profile:"], Some e)
      | None =>
          let '(updatedProfile, eff) := fetchProfile (id u) reread in
          (setUser updatedProfile st,
           Backend (UpdateProfile (id u) updates) :: eff, None)
      end
  end.

(** [signIn] (lines 167-185); reading [data.user] of a [null] [data] raises
    a [TypeError], which the [catch] logs and rethrows. *)
Definition signIn (email password : string) (o : Settled AuthData)
    (profile : Settled Profile) (login : Settled unit) (st : State)
    : State * list Effect * option string :=
  match raised o with
  | Some e =>
      (st, [Backend (SignInWithPassword email password);
            ConsoleError "Error signing in:"], Some e)
  | None =>
      match o with
      | Fulfilled (Js.Resolved (Some data)) =>
          match auth_user_id data with
          | Some uid =>
              let '(p, eff) := fetchProfile uid profile in
              (setUser p st,
               Backend (SignInWithPassword email password) :: eff ++
               updateLastLogin uid login, None)
          | None => (st, [Backend (SignInWithPassword email password)], None)
          end
      | _ =>
          (st, [Backend (SignInWithPassword email password);
                ConsoleError "Error signing in:"], Some "TypeError")
      end
  end.

End WithUpdates.

Arguments Backend {Updates} r.
Arguments ConsoleError {Updates} msg.
Arguments SelectProfile {Updates} userId.
Arguments UpdateLastLogin {Updates} userId.
Arguments UpdateProfile {Updates} userId updates.
Arguments SignInWithPassword {Updates} email password.
Arguments SignOut {Updates}.

(** The viewer the media page gets from [useAuth()]: [user.id] of the
    profile, if any. *)
Definition viewer (st : State) : option MediaPage.User :=
  match user st with
  | Some p => Some {| MediaPage.user_id := id p |}
  | None => None
  end.

End Auth.

(** ** Further notions for the properties *)

Module Props2.

(** An item without its three engagement fields. *)
Definition display_of (m : MediaPage.MediaItem) : MediaPage.MediaItem :=
  MediaPage.with_engagement m None None None.

Definition hook_display_of (m : UseMediaData.MediaItem) : UseMediaData.MediaItem :=
  UseMediaData.with_engagement m None None None.

(** The backend requests among effects, in order. *)
Definition requests (effs : list MediaPage.Effect) : list MediaPage.Request :=
  omap (fun e => match e with MediaPage.Backend r => Some r | _ => None end) effs.

(** The rows the viewer-scoped reads contribute for [user]. *)
Definition viewer_rows {A} (user : option MediaPage.User)
    (r : Js.Response (list A)) : list A :=
  match user with
  | Some _ => rows_of r
  | None => []
  end.

(** The state in which a fetch cycle that got the given answers ends. *)
Definition cycle_outcome (user : option MediaPage.User)
    (mr : Js.Response (list MediaPage.MediaItem))
    (lr ulr : Js.Response (list MediaPage.LikeRow))
    (ufr : Js.Response (list MediaPage.FollowRow)) : MediaPage.Store :=
  match mr with
  | Js.Failed _ =>
      MediaPage.mkStore [] false
        (Some "Failed to load media content. Please try again.") false
  | Js.Resolved (Some (item :: rest)) =>
      MediaPage.mkStore
        (MediaPage.enrich (item :: rest) (Js.data lr)
           (viewer_rows user ulr) (viewer_rows user ufr))
        false None false
  | Js.Resolved _ => MediaPage.mkStore [] false None false
  end.

(** The reads a fetch cycle makes, in order. *)
Definition cycle_requests (user : option MediaPage.User) (activeTab : string)
    (mr : Js.Response (list MediaPage.MediaItem)) : list MediaPage.Request :=
  match mr with
  | Js.Resolved (Some (_ :: _)) =>
      MediaPage.SelectMedia activeTab :: MediaPage.SelectAllLikes ::
      match user with
      | Some u => [MediaPage.SelectUserLikes (MediaPage.user_id u);
                   MediaPage.SelectUserFollows (MediaPage.user_id u)]
      | None => []
      end
  | _ => [MediaPage.SelectMedia activeTab]
  end.

(** The rows a suspended fetch holds. *)
Definition pending_rows (k : MediaPage.FetchCont) : list MediaPage.MediaItem :=
  match k with
  | MediaPage.AwaitMedia _ => []
  | MediaPage.AwaitAllLikes _ mediaData
  | MediaPage.AwaitUserLikes _ mediaData _
  | MediaPage.AwaitUserFollows _ mediaData _ _ => mediaData
  end.

(** The content rows an event delivers. *)
Definition delivered_rows (e : MediaPage.Event) : list MediaPage.MediaItem :=
  match e with
  | MediaPage.SettleFetch _ (MediaPage.MediaRows r) => Js.or_nil (Js.data r)
  | _ => []
  end.

(** The displayed like count is not negative. *)
Definition count_nonneg (m : MediaPage.MediaItem) : Prop :=
  0 ≤ MediaView.displayed_count m.

(** The three engagement fields are present. *)
Definition well_shaped (m : MediaPage.MediaItem) : Prop :=
  is_Some (MediaPage.likes_count m) ∧ is_Some (MediaPage.is_liked m) ∧
  is_Some (MediaPage.is_following m).

(** A click on the follow button of [creatorName] whose durable write the
    backend then confirms. *)
Definition follow_confirmed (u : MediaPage.User) (creatorName : string)
    (st : MediaPage.Store) : MediaPage.Store :=
  let '(st1, k, _) :=
    MediaPage.handleFollow (Some u) (MediaPage.mediaContent st) creatorName st in
  match k with
  | Some k1 => (MediaPage.write_resume k1 (Js.Resolved None) st1).1
  | None => st1
  end.

(** Events that involve no signed-in viewer. *)
Definition is_anonymous (e : MediaPage.Event) : bool :=
  match e with
  | MediaPage.CallFetch None _ | MediaPage.RealtimeChange None _
  | MediaPage.ClickLike None _ | MediaPage.ClickFollow None _ => true
  | MediaPage.SettleFetch _ _ | MediaPage.SettleWrite _ _ => true
  | _ => false
  end.

(** The viewer of the hook has a like row on [mid], or follows [c]. *)
Definition hook_liked (userId : option string) (mid : string)
    (rows : list UseMediaData.LikeRow) : Prop :=
  Js.truthy_str userId = true ∧
  ∃ row, row ∈ rows ∧ UseMediaData.media_id row = mid ∧
         userId = Some (UseMediaData.user_id row).

Definition hook_followed (userId : option string) (c : string)
    (rows : list UseMediaData.FollowRow) : Prop :=
  Js.truthy_str userId = true ∧
  ∃ row, row ∈ rows ∧ UseMediaData.creator_name row = c ∧
         userId = Some (UseMediaData.follower_id row).

(** An invariant of the page's event loop built from a property [P] of
    collections and a property [Q] of delivered content rows: the
    collection and every snapshot satisfy [P], the rows held by every
    suspended fetch satisfy [Q]. *)
Definition loop_inv (P Q : list MediaPage.MediaItem → Prop)
    (w : MediaPage.World) : Prop :=
  P (MediaPage.mediaContent (MediaPage.store w)) ∧
  Forall (fun k => P (snapshot k)) (MediaPage.writes w) ∧
  Forall (fun k => Q (pending_rows k)) (MediaPage.fetches w).

(** A suspended fetch that was started without a viewer. *)
Definition is_public_fetch (k : MediaPage.FetchCont) : bool :=
  match k with
  | MediaPage.AwaitMedia None | MediaPage.AwaitAllLikes None _ => true
  | _ => false
  end.

(** Neither liked nor followed. *)
Definition unflagged (m : MediaPage.MediaItem) : Prop :=
  MediaPage.is_liked m = Some false ∧ MediaPage.is_following m = Some false.

(** One fetch cycle of the hook: the answers to its three reads. *)
Definition hook_answers (ir : Js.Response (list UseMediaData.MediaItem))
    (lr : Js.Response (list UseMediaData.LikeRow))
    (fr : Js.Response (list UseMediaData.FollowRow)) : list HookLoop.Event :=
  [HookLoop.Settle 0 (UseMediaData.ItemRows ir);
   HookLoop.Settle 0 (UseMediaData.LikeRows lr);
   HookLoop.Settle 0 (UseMediaData.FollowRows fr)].

(** The collection after a signed-in viewer clicked the like button of
    [mediaId], or the follow button of [creatorName], on the collection
    [items] that is current and rendered. *)
Definition like_clicked (mediaId : string) (items : list MediaPage.MediaItem)
    : list MediaPage.MediaItem :=
  match find_id mediaId items with
  | Some item =>
      map (MediaPage.like_patch mediaId (Js.truthy (MediaPage.is_liked item)))
        items
  | None => items
  end.

Definition follow_clicked (creatorName : string)
    (items : list MediaPage.MediaItem) : list MediaPage.MediaItem :=
  match find_creator creatorName items with
  | Some item =>
      map (MediaPage.follow_patch creatorName
             (Js.truthy (MediaPage.is_following item)))
        items
  | None => items
  end.

(** No durable write and no read scoped to a viewer. *)
Definition is_public_effect (e : MediaPage.Effect) : bool :=
  negb (MediaPage.is_durable_write e) && negb (MediaPage.is_viewer_scoped e).

End Props2.

Import Props2.

(** ** Counting like edges *)

Section Counting.

Lemma or_num_some0 (n : Z) : Js.or_num (Some n) 0 = n.
Proof. unfold Js.or_num. destruct (Z.eqb_spec n 0); congruence. Qed.

Lemma edge_count_nonneg {A} (key : A → string) k rows :
  0 ≤ edge_count key k rows.
Proof. unfold edge_count. lia. Qed.

Lemma edge_count_cons {A} (key : A → string) k row rows :
  edge_count key k (row :: rows) =
  (if decide (key row = k) then 1 else 0) + edge_count key k rows.
Proof.
  unfold edge_count. rewrite filter_cons.
  destruct (decide (key row = k)); simpl length; lia.
Qed.

Lemma shown_count_pos n stored : n ≠ 0 → shown_count n stored = n.
Proof. intros H. unfold shown_count. by destruct (decide (n = 0)). Qed.

(** The map built by the page's [forEach]. *)
Lemma page_fold_lookup (likes : list MediaPage.LikeRow) :
  ∀ (m : gmap string Z) (k : string),
    foldl MediaPage.count_like m likes !! k =
    if decide (edge_count MediaPage.media_id k likes = 0) then m !! k
    else Some (Js.or_num (m !! k) 0 + edge_count MediaPage.media_id k likes).
Proof.
  induction likes as [|like likes IH]; intros m k.
  - reflexivity.
  - cbn [foldl]. rewrite IH, edge_count_cons.
    pose proof (edge_count_nonneg MediaPage.media_id k likes) as Hge.
    unfold MediaPage.count_like.
    destruct (decide (MediaPage.media_id like = k)) as [->|Hne].
    + rewrite lookup_insert_eq, or_num_some0.
      repeat case_decide; try lia; f_equal; lia.
    + rewrite lookup_insert_ne by done.
      repeat case_decide; try lia; done.
Qed.

Lemma page_likesCountMap_lookup allLikes k :
  MediaPage.likesCountMap allLikes !! k =
  let n := edge_count MediaPage.media_id k (Js.or_nil allLikes) in
  if decide (n = 0) then None else Some n.
Proof.
  unfold MediaPage.likesCountMap. rewrite page_fold_lookup.
  cbn zeta. case_decide; [apply lookup_empty|].
  rewrite lookup_empty. reflexivity.
Qed.

(** The record built by the hook's [forEach]. *)
Lemma hook_fold_lookup userId (likes : list UseMediaData.LikeRow) :
  ∀ (acc : gmap string Z * gset string) (k : string),
    (foldl (UseMediaData.count_like userId) acc likes).1 !! k =
    if decide (edge_count UseMediaData.media_id k likes = 0) then acc.1 !! k
    else Some (Js.or_num (acc.1 !! k) 0
               + edge_count UseMediaData.media_id k likes).
Proof.
  induction likes as [|like likes IH]; intros acc k.
  - reflexivity.
  - cbn [foldl]. rewrite IH, edge_count_cons.
    pose proof (edge_count_nonneg UseMediaData.media_id k likes) as Hge.
    assert ((UseMediaData.count_like userId acc like).1 =
            <[UseMediaData.media_id like :=
                Js.or_num (acc.1 !! UseMediaData.media_id like) 0 + 1]> acc.1)
      as ->.
    { unfold UseMediaData.count_like. by case_match. }
    destruct (decide (UseMediaData.media_id like = k)) as [->|Hne].
    + rewrite lookup_insert_eq, or_num_some0.
      repeat case_decide; try lia; f_equal; lia.
    + rewrite lookup_insert_ne by done.
      repeat case_decide; try lia; done.
Qed.

Lemma hook_scan_likes_lookup userId likesData k :
  (UseMediaData.scan_likes userId likesData).1 !! k =
  let n := edge_count UseMediaData.media_id k (Js.or_nil likesData) in
  if decide (n = 0) then None else Some n.
Proof.
  destruct likesData as [rows|]; cbn [UseMediaData.scan_likes Js.or_nil].
  - rewrite hook_fold_lookup. cbn. case_decide; [apply lookup_empty|].
    rewrite lookup_empty. reflexivity.
  - cbn. apply lookup_empty.
Qed.

Lemma or_num_count (o : option Z) stored n :
  0 ≤ n → o = (if decide (n = 0) then None else Some n) →
  Js.or_num o (Js.or_num stored 0) = shown_count n stored.
Proof.
  intros Hn ->. unfold shown_count. case_decide; [done|].
  cbn. destruct (Z.eqb_spec n 0); [lia|done].
Qed.

End Counting.

(** ** Enrichment *)

Section Enrichment.

Lemma page_enrich_item_count counts liked followed allLikes item :
  (∀ k, counts !! k =
        let n := edge_count MediaPage.media_id k (Js.or_nil allLikes) in
        if decide (n = 0) then None else Some n) →
  MediaPage.likes_count (MediaPage.enrich_item counts liked followed item) =
  Some (shown_count
          (edge_count MediaPage.media_id (MediaPage.id item) (Js.or_nil allLikes))
          (MediaPage.likes_count item)).
Proof.
  intros Hc. cbn. f_equal.
  apply or_num_count; [apply edge_count_nonneg | apply Hc].
Qed.

Lemma hook_enrich_item_count counts liked followed likesData item :
  (∀ k, counts !! k =
        let n := edge_count UseMediaData.media_id k (Js.or_nil likesData) in
        if decide (n = 0) then None else Some n) →
  UseMediaData.like_count
    (UseMediaData.enrich_item counts liked followed item) =
  Some (shown_count
          (edge_count UseMediaData.media_id (UseMediaData.id item)
             (Js.or_nil likesData))
          (UseMediaData.like_count item)).
Proof.
  intros Hc. cbn. f_equal.
  apply or_num_count; [apply edge_count_nonneg | apply Hc].
Qed.

Lemma Forall2_map_r {A B} (R : A → B → Prop) (f : A → B) (l : list A) :
  (∀ x, R x (f x)) → Forall2 R l (map f l).
Proof. intros H. induction l; cbn; constructor; auto. Qed.

(** C1, as the code has it: one enrichment pass over N content rows yields
    N items in the same order, and the like count of each is the number of
    like edges that reference it when that number is positive (so the
    computed count wins over the stored counter), and otherwise the stored
    counter, or 0 when the row has none.  This holds for the page's
    [fetchMediaContent] and for the hook's [fetchMediaItems]. *)
Theorem enrich_like_count :
  (∀ mediaData allLikes userLikes userFollows,
      let enriched := MediaPage.enrich mediaData allLikes userLikes userFollows in
      length enriched = length mediaData ∧
      Forall2
        (fun item item' =>
           MediaPage.id item' = MediaPage.id item ∧
           MediaPage.likes_count item' =
           Some (shown_count
                   (edge_count MediaPage.media_id (MediaPage.id item)
                      (Js.or_nil allLikes))
                   (MediaPage.likes_count item)))
        mediaData enriched) ∧
  (∀ userId items likesData followsData,
      let enriched := UseMediaData.enrich userId items likesData followsData in
      length enriched = length items ∧
      Forall2
        (fun item item' =>
           UseMediaData.id item' = UseMediaData.id item ∧
           UseMediaData.like_count item' =
           Some (shown_count
                   (edge_count UseMediaData.media_id (UseMediaData.id item)
                      (Js.or_nil likesData))
                   (UseMediaData.like_count item)))
        items enriched).
Proof.
  split.
  - intros mediaData allLikes userLikes userFollows enriched.
    subst enriched. unfold MediaPage.enrich. split; [apply length_map|].
    apply Forall2_map_r. intros item. split; [reflexivity|].
    apply page_enrich_item_count, page_likesCountMap_lookup.
  - intros userId items likesData followsData enriched.
    subst enriched. unfold UseMediaData.enrich.
    pose proof (hook_scan_likes_lookup userId likesData) as Hc.
    destruct (UseMediaData.scan_likes userId likesData) as [counts liked].
    split; [apply length_map|].
    apply Forall2_map_r. intros item. split; [reflexivity|].
    apply hook_enrich_item_count, Hc.
Qed.

(** C1 as stated fails: a row whose stored counter is 5 and that no like
    edge references is shown with 5 likes, not with the computed 0. *)
Lemma stored_counter_shown_without_edges :
  let row := page_row "a" "Jo" (Some 5) in
  let allLikes : option (list MediaPage.LikeRow) := Some [] in
  edge_count MediaPage.media_id "a" (Js.or_nil allLikes) = 0 ∧
  map MediaPage.likes_count (MediaPage.enrich [row] allLikes [] []) = [Some 5] ∧
  ¬ (∀ item', item' ∈ MediaPage.enrich [row] allLikes [] [] →
       MediaPage.likes_count item' =
       Some (edge_count MediaPage.media_id (MediaPage.id item')
               (Js.or_nil allLikes))).
Proof.
  cbn zeta. split; [reflexivity|]. split; [vm_compute; reflexivity|].
  intros H. specialize (H _ (list_elem_of_here _ _)).
  vm_compute in H. discriminate H.
Qed.

End Enrichment.

(** ** The Fetch Guard *)

Section FetchGuard.

Import MediaPage.

Lemma fetch_resume_marker k a st :
  match fetch_resume k a st with
  | (st', Some _, _) => fetchInProgress st' = fetchInProgress st
  | (st', None, _) => fetchInProgress st' = false
  end.
Proof.
  destruct k, a as [r|r|r]; cbn; try reflexivity.
  - destruct r as [[[|item rest]|]|e]; reflexivity.
  - destruct user; reflexivity.
Qed.

Lemma handleLike_marker user captured mediaId st :
  fetchInProgress (handleLike user captured mediaId st).1.1 = fetchInProgress st.
Proof.
  unfold handleLike. destruct user; [|reflexivity].
  destruct (find _ captured); reflexivity.
Qed.

Lemma handleFollow_marker user captured creatorName st :
  fetchInProgress (handleFollow user captured creatorName st).1.1 =
  fetchInProgress st.
Proof.
  unfold handleFollow. destruct user; [|reflexivity].
  destruct (find _ captured); reflexivity.
Qed.

Lemma write_resume_marker k r st :
  fetchInProgress (write_resume k r st).1 = fetchInProgress st.
Proof. unfold write_resume. destruct (Js.error r), k; reflexivity. Qed.

(** A trigger that finds the marker set changes nothing. *)
Lemma trigger_in_flight w e :
  is_fetch_trigger e = true → fetchInProgress (store w) = true → step w e = w.
Proof.
  intros He Hf. destruct e; try discriminate He; cbn.
  - unfold fetchMediaContent. rewrite Hf.
    destruct w; cbn. by rewrite !app_nil_r.
  - by rewrite Hf.
Qed.

Lemma triggers_in_flight calls w :
  Forall (fun e => is_fetch_trigger e = true) calls →
  fetchInProgress (store w) = true → run w calls = w.
Proof.
  intros Hall Hf. induction Hall as [|e calls He _ IH]; [reflexivity|].
  unfold run in *. cbn [foldl]. by rewrite (trigger_in_flight w e He Hf).
Qed.

Lemma trigger_idle w user activeTab :
  guard_inv w → fetchInProgress (store w) = false →
  let w1 := step w (CallFetch user activeTab) in
  fetches w1 = [AwaitMedia user] ∧ fetchInProgress (store w1) = true ∧
  trace w1 = trace w ++ [Backend (SelectMedia activeTab)].
Proof.
  unfold guard_inv. intros Hinv Hf. rewrite Hf in Hinv.
  cbn. unfold fetchMediaContent. rewrite Hf, Hinv. by cbn.
Qed.

Lemma step_guard_inv w e : guard_inv w → guard_inv (step w e).
Proof.
  unfold guard_inv. intros Hinv. destruct e as [u t|u t|i a|u m|u c|i r]; cbn.
  - unfold fetchMediaContent.
    destruct (fetchInProgress (store w)) eqn:Hf; cbn.
    + by rewrite Hf, app_nil_r.
    + by rewrite Hinv.
  - destruct (fetchInProgress (store w)) eqn:Hf; [by rewrite Hf|].
    unfold fetchMediaContent. rewrite Hf. cbn. by rewrite Hinv.
  - destruct (fetches w !! i) as [k|] eqn:Hk; [|done].
    pose proof (fetch_resume_marker k a (store w)) as Hm.
    destruct (fetch_resume k a (store w)) as [[st' [k2|]] eff]; cbn.
    + rewrite Hm. destruct (fetchInProgress (store w)).
      * by rewrite length_insert.
      * rewrite Hinv in Hk. discriminate Hk.
    + rewrite Hm. destruct (fetchInProgress (store w)).
      * destruct (fetches w) as [|k0 [|k1 rest]]; try discriminate Hinv.
        destruct i; [reflexivity|discriminate Hk].
      * rewrite Hinv in Hk. discriminate Hk.
  - pose proof (handleLike_marker u (mediaContent (store w)) m (store w)) as Hm.
    destruct (handleLike _ _ _ _) as [[st' k] eff]. cbn in *. by rewrite Hm.
  - pose proof (handleFollow_marker u (mediaContent (store w)) c (store w)) as Hm.
    destruct (handleFollow _ _ _ _) as [[st' k] eff]. cbn in *. by rewrite Hm.
  - destruct (writes w !! i) as [k|] eqn:Hk; [|done].
    pose proof (write_resume_marker k r (store w)) as Hm.
    destruct (write_resume _ _ _) as [st' eff]. cbn in *. by rewrite Hm.
Qed.

Lemma run_guard_inv es : ∀ w, guard_inv w → guard_inv (run w es).
Proof.
  induction es as [|e es IH]; intros w Hw; [done|].
  apply (IH (step w e)), step_guard_inv, Hw.
Qed.

Lemma initial_guard_inv : guard_inv initialWorld.
Proof. reflexivity. Qed.

End FetchGuard.

Section FetchCycle.

Import MediaPage.

(** One fetch cycle from an idle component, whatever the backend answers
    (content read failed, no content, or content enriched): the call is
    over, the marker is released, and exactly one content read was made. *)
Lemma cycle_completes w user activeTab mr lr ulr ufr :
  fetchInProgress (store w) = false → fetches w = [] →
  let w2 := run (step w (CallFetch user activeTab)) (answers mr lr ulr ufr) in
  fetches w2 = [] ∧ fetchInProgress (store w2) = false ∧
  loading (store w2) = false ∧
  media_reads w2 = S (media_reads w).
Proof.
  destruct w as [[mc ld er fl] fs ws tr]. cbn. intros -> ->.
  unfold media_reads.
  destruct mr as [[[|item rest]|]|e]; cbn;
    try (repeat split; try reflexivity;
         rewrite ?List.filter_app, ?length_app; cbn; lia).
  destruct user as [u|], lr as [d|e]; cbn;
    repeat split; try reflexivity;
    rewrite ?List.filter_app, ?length_app; cbn; lia.
Qed.

Lemma idle_no_fetches w :
  guard_inv w → fetchInProgress (store w) = false → fetches w = [].
Proof. unfold guard_inv. intros H Hf. by rewrite Hf in H. Qed.

(** C4: while a fetch is in flight every further trigger returns at once
    and reads nothing, so the triggers together make one content read; on
    every way the fetch can end the marker is released, and the next
    trigger reads again.  Over every sequence of events at most one fetch
    is suspended, and the marker is set exactly then. *)
Theorem fetch_guard (es calls later : list Event)
    (user user' : option User) (activeTab activeTab' : string)
    (mr : Js.Response (list MediaItem)) (lr ulr : Js.Response (list LikeRow))
    (ufr : Js.Response (list FollowRow)) :
  fetchInProgress (store (run initialWorld es)) = false →
  Forall (fun e => is_fetch_trigger e = true) calls →
  let w := run initialWorld es in
  let w1 := step w (CallFetch user activeTab) in
  let w2 := run (run w1 calls) (answers mr lr ulr ufr) in
  (fetches w1 = [AwaitMedia user] ∧ fetchInProgress (store w1) = true) ∧
  (run w1 calls = w1 ∧ media_reads (run w1 calls) = S (media_reads w)) ∧
  (fetches w2 = [] ∧ fetchInProgress (store w2) = false ∧
   media_reads w2 = S (media_reads w)) ∧
  media_reads (step w2 (CallFetch user' activeTab')) = S (media_reads w2) ∧
  guard_inv (run w1 later) ∧
  (∀ k a st,
      match fetch_resume k a st with
      | (st', Some _, _) => fetchInProgress st' = fetchInProgress st
      | (st', None, _) => fetchInProgress st' = false
      end).
Proof.
  intros Hidle Hcalls w w1 w2.
  assert (guard_inv w) as Hinv
    by (apply run_guard_inv, initial_guard_inv).
  pose proof (idle_no_fetches w Hinv Hidle) as Hnone.
  destruct (trigger_idle w user activeTab Hinv Hidle) as (Hf1 & Hm1 & Ht1).
  fold w1 in Hf1, Hm1, Ht1.
  pose proof (triggers_in_flight calls w1 Hcalls Hm1) as Hnoop.
  assert (media_reads w1 = S (media_reads w)) as Hr1.
  { unfold media_reads. rewrite Ht1, List.filter_app, length_app. cbn. lia. }
  destruct (cycle_completes w user activeTab mr lr ulr ufr Hidle Hnone)
    as (Hf2 & Hm2 & _ & Hr2).
  assert (w2 = run w1 (answers mr lr ulr ufr)) as Hw2
    by (unfold w2; by rewrite Hnoop).
  fold w1 in Hf2, Hm2, Hr2. rewrite <- Hw2 in Hf2, Hm2, Hr2.
  assert (guard_inv w2) as Hinv2.
  { unfold guard_inv. by rewrite Hm2. }
  destruct (trigger_idle w2 user' activeTab' Hinv2 Hm2) as (_ & _ & Ht3).
  repeat split; try assumption.
  - by rewrite Hnoop.
  - unfold media_reads. rewrite Ht3, List.filter_app, length_app. cbn.
    unfold media_reads. lia.
  - apply run_guard_inv, step_guard_inv, Hinv.
  - apply fetch_resume_marker.
Qed.

(** [fetch_guard] on a freshly mounted component: a tab effect starts the
    fetch, a second effect and a realtime event arrive while it is in
    flight, then the content read fails. *)
Lemma fetch_guard_witness :
  let calls := [CallFetch None "listen"; RealtimeChange None "stream"] in
  let w1 := step initialWorld (CallFetch None "stream") in
  fetchInProgress (store (run initialWorld [])) = false ∧
  Forall (fun e => is_fetch_trigger e = true) calls ∧
  media_reads (run w1 calls) = 1%nat ∧
  fetchInProgress
    (store (run (run w1 calls)
              (answers (Js.Failed "offline") (Js.Failed "offline")
                 (Js.Failed "offline") (Js.Failed "offline")))) = false.
Proof.
  cbn zeta.
  assert (fetchInProgress (store (run initialWorld [])) = false) as H1
    by reflexivity.
  assert (Forall (fun e => is_fetch_trigger e = true)
            [CallFetch None "listen"; RealtimeChange None "stream"]) as H2
    by (repeat constructor).
  pose proof (fetch_guard [] _ [] None None "stream" "stream"
                (Js.Failed "offline") (Js.Failed "offline")
                (Js.Failed "offline") (Js.Failed "offline") H1 H2) as H.
  cbn zeta in H. destruct H as (_ & (_ & Hr) & (_ & Hm & _) & _).
  repeat split; assumption.
Defined.

End FetchCycle.

(** ** Failure of the content read *)

Section FetchFailure.

(** C2, as the code has it: when the content read fails, the [catch] block
    replaces the item collection by the empty one and sets the error; the
    [finally] block releases the marker and the loading flag.  The items
    held before the failure are not kept.  The page and the hook agree. *)
Theorem failed_fetch_clears_items :
  (∀ (st : MediaPage.Store) (user : option MediaPage.User) (e : string),
      let '(st', k, eff) :=
        MediaPage.fetch_resume (MediaPage.AwaitMedia user)
          (MediaPage.MediaRows (Js.Failed e)) st in
      MediaPage.mediaContent st' = [] ∧
      MediaPage.error st' =
        Some "Failed to load media content. Please try again." ∧
      MediaPage.loading st' = false ∧
      MediaPage.fetchInProgress st' = false ∧
      k = None) ∧
  (∀ (st : UseMediaData.Store) (userId : option string) (e : string),
      let '(st', k, eff) :=
        UseMediaData.fetch_resume (UseMediaData.AwaitItems userId)
          (UseMediaData.ItemRows (Js.Failed e)) st in
      UseMediaData.mediaItems st' = [] ∧
      UseMediaData.error st' = Some "Failed to load media items" ∧
      UseMediaData.loading st' = false ∧
      k = None).
Proof. split; intros; cbn; repeat split. Qed.

(** C2 as stated fails: a first fetch fills the collection with one item;
    a second fetch whose content read fails leaves it empty. *)
Lemma failed_fetch_empties_collection :
  let w0 :=
    MediaPage.run MediaPage.initialWorld
      [MediaPage.CallFetch None "stream";
       MediaPage.SettleFetch 0
         (MediaPage.MediaRows (Js.Resolved (Some [page_row "a" "Jo" None])));
       MediaPage.SettleFetch 0 (MediaPage.LikeRows (Js.Resolved (Some [])))] in
  let w1 :=
    MediaPage.run w0
      [MediaPage.CallFetch None "stream";
       MediaPage.SettleFetch 0 (MediaPage.MediaRows (Js.Failed "offline"))] in
  MediaPage.mediaContent (MediaPage.store w0) =
    [page_item "a" "Jo" 0 false false] ∧
  MediaPage.mediaContent (MediaPage.store w1) = [] ∧
  MediaPage.mediaContent (MediaPage.store w1) ≠
    MediaPage.mediaContent (MediaPage.store w0) ∧
  MediaPage.error (MediaPage.store w1) =
    Some "Failed to load media content. Please try again.".
Proof.
  cbn zeta. split; [vm_compute; reflexivity|].
  split; [vm_compute; reflexivity|].
  split; [vm_compute; discriminate|vm_compute; reflexivity].
Qed.

End FetchFailure.

(** ** The public view and the tolerated failure of the like read *)

Section ViewerScope.

Import MediaPage.

Lemma in_rows {A} (f : A → string) (rows : list A) (x : string) :
  bool_decide (x ∈ (list_to_set (map f rows) : gset string)) =
  bool_decide (x ∈ map f rows).
Proof. apply bool_decide_ext. by rewrite elem_of_list_to_set. Qed.

(** Enrichment without viewer rows marks nothing as liked or followed. *)
Lemma page_enrich_public mediaData allLikes :
  Forall (fun m => is_liked m = Some false ∧ is_following m = Some false)
    (enrich mediaData allLikes [] []).
Proof.
  unfold enrich. induction mediaData as [|item rest IH]; cbn [map];
    constructor; [|exact IH].
  cbn. unfold userLikesSet, userFollowsSet.
  split; f_equal; apply bool_decide_eq_false; cbn; set_solver.
Qed.

Lemma hook_fold_public (likes : list UseMediaData.LikeRow) :
  ∀ acc, (foldl (UseMediaData.count_like None) acc likes).2 = acc.2.
Proof.
  induction likes as [|like likes IH]; intros acc; [reflexivity|].
  cbn [foldl]. by rewrite IH.
Qed.

Lemma hook_enrich_public items likesData followsData :
  Forall (fun m => UseMediaData.is_liked m = Some false ∧
                   UseMediaData.is_followed m = Some false)
    (UseMediaData.enrich None items likesData followsData).
Proof.
  unfold UseMediaData.enrich.
  assert ((UseMediaData.scan_likes None likesData).2 = ∅) as Hl.
  { destruct likesData as [rows|]; cbn; [|done]. by rewrite hook_fold_public. }
  destruct (UseMediaData.scan_likes None likesData) as [counts liked].
  cbn in Hl. subst liked.
  assert (UseMediaData.scan_follows None followsData = ∅) as ->
    by (by destruct followsData).
  induction items as [|item rest IH]; cbn [map]; constructor; [|exact IH].
  cbn. split; f_equal; apply bool_decide_eq_false; set_solver.
Qed.

(** C7: with no signed-in viewer a fetch cycle, whatever the backend
    answers, issues no read scoped to a viewer, and every item it stores
    is neither liked nor followed; when the content read delivers rows the
    stored collection is their enrichment with no viewer edges.  The hook
    marks nothing as liked or followed for a null viewer either. *)
Theorem public_view (w : World) (activeTab : string)
    (mr : Js.Response (list MediaItem)) (lr ulr : Js.Response (list LikeRow))
    (ufr : Js.Response (list FollowRow)) :
  fetchInProgress (store w) = false → fetches w = [] →
  let w2 := run (step w (CallFetch None activeTab)) (answers mr lr ulr ufr) in
  (∃ eff, trace w2 = trace w ++ eff ∧
          Forall (fun e => is_viewer_scoped e = false) eff) ∧
  Forall (fun m => is_liked m = Some false ∧ is_following m = Some false)
    (mediaContent (store w2)) ∧
  (∀ item rest, mr = Js.Resolved (Some (item :: rest)) →
     mediaContent (store w2) = enrich (item :: rest) (Js.data lr) [] []) ∧
  (∀ items likesData followsData,
     Forall (fun m => UseMediaData.is_liked m = Some false ∧
                      UseMediaData.is_followed m = Some false)
       (UseMediaData.enrich None items likesData followsData)).
Proof.
  destruct w as [[mc ld er fl] fs ws tr]. cbn. intros -> ->.
  split; [|split; [|split]].
  - destruct mr as [[[|item rest]|]|e]; cbn;
      try (eexists; split; [rewrite <- app_assoc; reflexivity|];
           repeat constructor; fail).
    destruct lr as [d|e]; cbn;
      (eexists; split; [rewrite <- !app_assoc; reflexivity|];
       repeat constructor).
  - destruct mr as [[[|item rest]|]|e]; [destruct lr as [d|e]|..];
      cbn -[enrich]; try apply page_enrich_public; constructor.
  - intros item rest ->. cbn. by destruct lr.
  - apply hook_enrich_public.
Qed.

(** [public_view] on the scenario of the specification: one row "a" by
    "Jo", no edges, no viewer. *)
Lemma public_view_witness :
  let mr := Js.Resolved (Some [page_row "a" "Jo" None]) in
  let lr := Js.Resolved (Some []) in
  let w2 := run (step initialWorld (CallFetch None "stream"))
              (answers mr lr lr (Js.Resolved (Some []))) in
  fetchInProgress (store initialWorld) = false ∧ fetches initialWorld = [] ∧
  mediaContent (store w2) = [page_item "a" "Jo" 0 false false] ∧
  Forall (fun m => is_liked m = Some false ∧ is_following m = Some false)
    (mediaContent (store w2)).
Proof.
  cbn zeta.
  pose proof (public_view initialWorld "stream"
                (Js.Resolved (Some [page_row "a" "Jo" None]))
                (Js.Resolved (Some [])) (Js.Resolved (Some []))
                (Js.Resolved (Some [])) eq_refl eq_refl) as H.
  cbn zeta in H. destruct H as (_ & Hflags & _ & _).
  split; [reflexivity|]. split; [reflexivity|].
  split; [vm_compute; reflexivity|exact Hflags].
Defined.

End ViewerScope.

Section LikeReadFailure.

Import MediaPage.

Lemma page_enrich_no_likes mediaData userLikes userFollows :
  Forall2
    (fun item item' =>
       likes_count item' = Some (Js.or_num (likes_count item) 0) ∧
       is_liked item' = Some (bool_decide (id item ∈ map media_id userLikes)))
    mediaData (enrich mediaData None userLikes userFollows).
Proof.
  unfold enrich. apply Forall2_map_r. intros item. split.
  - rewrite (page_enrich_item_count _ _ _ None)
      by apply page_likesCountMap_lookup.
    reflexivity.
  - cbn. unfold userLikesSet. by rewrite in_rows.
Qed.

(** C10: when the content read delivers rows and the read of all like
    edges reports an error, the cycle goes on: the error is only logged,
    the error flag stays clear, and the collection is the enrichment with
    no like edge, in which each like count is the stored counter (0 when
    the row has none) and an item is liked exactly when the viewer's own
    like rows, read separately, name it. *)
Theorem likes_read_failure_tolerated (w : World) (user : option User)
    (activeTab : string) (item : MediaItem) (rest : list MediaItem)
    (e : string) (ulr : Js.Response (list LikeRow))
    (ufr : Js.Response (list FollowRow)) :
  fetchInProgress (store w) = false → fetches w = [] →
  let mediaData := item :: rest in
  let userLikes := match user with Some _ => rows_of ulr | None => [] end in
  let userFollows := match user with Some _ => rows_of ufr | None => [] end in
  let w2 := run (step w (CallFetch user activeTab))
              (answers (Js.Resolved (Some mediaData)) (Js.Failed e) ulr ufr) in
  fetches w2 = [] ∧
  error (store w2) = None ∧
  mediaContent (store w2) = enrich mediaData None userLikes userFollows ∧
  Forall2
    (fun row shown =>
       likes_count shown = Some (Js.or_num (likes_count row) 0) ∧
       is_liked shown = Some (bool_decide (id row ∈ map media_id userLikes)))
    mediaData (mediaContent (store w2)).
Proof.
  destruct w as [[mc ld er fl] fs ws tr]. cbn -[enrich]. intros -> ->.
  assert (∀ ul uf (c : list MediaItem),
            c = enrich (item :: rest) None ul uf →
            c = enrich (item :: rest) None ul uf ∧
            Forall2
              (fun row shown =>
                 likes_count shown = Some (Js.or_num (likes_count row) 0) ∧
                 is_liked shown =
                   Some (bool_decide (id row ∈ map media_id ul)))
              (item :: rest) c) as Hfin.
  { intros ul uf c ->. split; [reflexivity|apply page_enrich_no_likes]. }
  destruct user as [u|]; cbn -[enrich].
  - unfold rows_of.
    destruct ulr as [ud|ue], ufr as [fd|fe]; cbn -[enrich];
      (split; [reflexivity|]); (split; [reflexivity|]);
      by apply Hfin.
  - (split; [reflexivity|]); (split; [reflexivity|]). by apply Hfin.
Qed.

(** [likes_read_failure_tolerated] for a signed-in viewer who liked "a":
    the stored counter 4 is shown and the item is liked. *)
Lemma likes_read_failure_tolerated_witness :
  let row := page_row "a" "Jo" (Some 4) in
  let w2 := run (step initialWorld (CallFetch (Some {| user_id := "u1" |}) "stream"))
              (answers (Js.Resolved (Some [row])) (Js.Failed "denied")
                 (Js.Resolved (Some [{| media_id := "a" |}]))
                 (Js.Resolved (Some []))) in
  fetchInProgress (store initialWorld) = false ∧ fetches initialWorld = [] ∧
  error (store w2) = None ∧
  mediaContent (store w2) = [page_item "a" "Jo" 4 true false].
Proof.
  cbn zeta.
  pose proof (likes_read_failure_tolerated initialWorld
                (Some {| user_id := "u1" |}) "stream"
                (page_row "a" "Jo" (Some 4)) [] "denied"
                (Js.Resolved (Some [{| media_id := "a" |}]))
                (Js.Resolved (Some [])) eq_refl eq_refl) as H.
  cbn zeta in H. destruct H as (_ & Herr & Hc & _).
  split; [reflexivity|]. split; [reflexivity|]. split; [exact Herr|].
  rewrite Hc. vm_compute. reflexivity.
Defined.

End LikeReadFailure.

(** ** Optimistic toggles *)

Section Toggles.

Import MediaPage.

Lemma like_patch_id mediaId b m : id (like_patch mediaId b m) = id m.
Proof. unfold like_patch. by case_bool_decide. Qed.

Lemma follow_patch_creator c b m :
  creator_name (follow_patch c b m) = creator_name m.
Proof. unfold follow_patch. by case_bool_decide. Qed.

Lemma find_id_patch mediaId b items :
  find_id mediaId (map (like_patch mediaId b) items) =
  like_patch mediaId b <$> find_id mediaId items.
Proof.
  unfold find_id. induction items as [|m items IH]; [reflexivity|].
  cbn [map find]. rewrite like_patch_id.
  destruct (bool_decide (id m = mediaId)); [reflexivity|exact IH].
Qed.

Lemma find_id_Some mediaId items item :
  find_id mediaId items = Some item → id item = mediaId ∧ item ∈ items.
Proof.
  unfold find_id. intros H. apply find_some in H as [Hin Hid].
  split; [by apply bool_decide_eq_true in Hid|by apply list_elem_of_In].
Qed.

Lemma find_creator_Some c items item :
  find_creator c items = Some item → creator_name item = c ∧ item ∈ items.
Proof.
  unfold find_creator. intros H. apply find_some in H as [Hin Hc].
  split; [by apply bool_decide_eq_true in Hc|by apply list_elem_of_In].
Qed.

Lemma like_patch_other mediaId b items i m :
  items !! i = Some m → id m ≠ mediaId →
  map (like_patch mediaId b) items !! i = Some m.
Proof.
  intros Hi Hne. change (map (like_patch mediaId b) items)
    with (like_patch mediaId b <$> items).
  rewrite list_lookup_fmap, Hi. cbn. unfold like_patch.
  by rewrite bool_decide_eq_false_2.
Qed.

(** C5: for a signed-in viewer and an item of the collection, the part of
    [handleLike] that runs before the durable write is answered stores the
    item with [is_liked] inverted and the like count raised by one when it
    was not liked, lowered by one but not below 0 when it was; the write is
    issued and the handler is left waiting for it.  Items with another
    identifier keep their place and value. *)
Theorem optimistic_like_patch (u : User) (st : Store) (mediaId : string)
    (item : MediaItem) :
  find_id mediaId (mediaContent st) = Some item →
  let wasLiked := Js.truthy (is_liked item) in
  let count := Js.or_num (likes_count item) 0 in
  let patched :=
    with_engagement item
      (Some (if wasLiked then Z.max 0 (count - 1) else count + 1))
      (Some (negb wasLiked)) (is_following item) in
  ∃ st',
    handleLike (Some u) (mediaContent st) mediaId st =
      (st', Some (LikeWrite (mediaContent st)),
       [Backend (if wasLiked then DeleteLike mediaId (user_id u)
                 else InsertLike mediaId (user_id u))]) ∧
    find_id mediaId (mediaContent st') = Some patched ∧
    length (mediaContent st') = length (mediaContent st) ∧
    (∀ i m, mediaContent st !! i = Some m → id m ≠ mediaId →
            mediaContent st' !! i = Some m).
Proof.
  intros Hfind wasLiked count patched.
  destruct (find_id_Some _ _ _ Hfind) as [Hid _].
  unfold handleLike. fold (find_id mediaId (mediaContent st)).
  rewrite Hfind. eexists. split; [reflexivity|]. cbn [mediaContent setMediaContent].
  split; [|split].
  - rewrite find_id_patch, Hfind. cbn. unfold like_patch.
    by rewrite bool_decide_eq_true_2.
  - apply length_map.
  - intros i m. apply like_patch_other.
Qed.

(** [optimistic_like_patch] on the scenario of the specification: item "a"
    with 2 likes, not liked by the viewer, shows 3 likes and is liked. *)
Lemma optimistic_like_patch_witness :
  let st := mkStore [page_item "a" "Jo" 2 false false] false None false in
  let u := {| user_id := "u1" |} in
  find_id "a" (mediaContent st) = Some (page_item "a" "Jo" 2 false false) ∧
  ∃ st',
    handleLike (Some u) (mediaContent st) "a" st =
      (st', Some (LikeWrite (mediaContent st)), [Backend (InsertLike "a" "u1")]) ∧
    mediaContent st' = [page_item "a" "Jo" 3 true false].
Proof.
  cbn zeta. split; [reflexivity|].
  destruct (optimistic_like_patch {| user_id := "u1" |}
              (mkStore [page_item "a" "Jo" 2 false false] false None false)
              "a" (page_item "a" "Jo" 2 false false) eq_refl)
    as (st' & Hcall & _).
  exists st'. split; [exact Hcall|].
  cbn in Hcall. injection Hcall as <-. reflexivity.
Defined.

End Toggles.

Section DoubleToggle.

Import MediaPage.






End DoubleToggle.

(** ** Rollback *)

Section Rollback.

Import MediaPage.

Lemma handleLike_snapshot user captured mediaId st st1 k eff :
  handleLike user captured mediaId st = (st1, Some k, eff) →
  k = LikeWrite captured.
Proof.
  unfold handleLike. destruct user; [|discriminate].
  destruct (find _ captured); [|discriminate]. by intros [= _ <- _].
Qed.

Lemma handleFollow_snapshot user captured creatorName st st1 k eff :
  handleFollow user captured creatorName st = (st1, Some k, eff) →
  k = FollowWrite captured.
Proof.
  unfold handleFollow. destruct user; [|discriminate].
  destruct (find _ captured); [|discriminate]. by intros [= _ <- _].
Qed.

(** C3: when [handleLike] or [handleFollow] has applied its patch and its
    durable write then fails, the collection becomes exactly the one the
    handler captured before patching, every item of it included, whatever
    happened to the state in between; the error message is set and the
    other cells of the state are left as they were. *)
Theorem rollback_restores_snapshot (user : option User)
    (captured : list MediaItem) (target : string) (st st1 later : Store)
    (k : WriteCont) (eff : list Effect) (e : string) :
  handleLike user captured target st = (st1, Some k, eff) ∨
  handleFollow user captured target st = (st1, Some k, eff) →
  let '(st2, eff2) := write_resume k (Js.Failed e) later in
  mediaContent st2 = captured ∧
  is_Some (error st2) ∧
  loading st2 = loading later ∧
  fetchInProgress st2 = fetchInProgress later ∧
  ∃ msg, eff2 = [ConsoleError msg].
Proof.
  intros [H|H].
  - apply handleLike_snapshot in H as ->. cbn. eauto 10.
  - apply handleFollow_snapshot in H as ->. cbn. eauto 10.
Qed.

(** [rollback_restores_snapshot] on the scenario of the specification: the
    like of "a" (2 likes, not liked) is patched to 3 likes, the insert
    fails, and the collection, with the unrelated item "b", is back. *)
Lemma rollback_restores_snapshot_witness :
  let items := [page_item "a" "Jo" 2 false false; page_item "b" "Al" 7 true true] in
  let st := mkStore items false None false in
  let st1 :=
    mkStore [page_item "a" "Jo" 3 true false; page_item "b" "Al" 7 true true]
      false None false in
  let failed := (write_resume (LikeWrite items) (Js.Failed "offline") st1).1 in
  handleLike (Some {| user_id := "u1" |}) items "a" st =
    (st1, Some (LikeWrite items), [Backend (InsertLike "a" "u1")]) ∧
  mediaContent failed = items ∧ is_Some (error failed).
Proof.
  cbn zeta. split; [reflexivity|].
  pose proof (rollback_restores_snapshot (Some {| user_id := "u1" |})
                [page_item "a" "Jo" 2 false false; page_item "b" "Al" 7 true true]
                "a"
                (mkStore [page_item "a" "Jo" 2 false false;
                          page_item "b" "Al" 7 true true] false None false)
                (mkStore [page_item "a" "Jo" 3 true false;
                          page_item "b" "Al" 7 true true] false None false)
                (mkStore [page_item "a" "Jo" 3 true false;
                          page_item "b" "Al" 7 true true] false None false)
                (LikeWrite [page_item "a" "Jo" 2 false false;
                            page_item "b" "Al" 7 true true])
                [Backend (InsertLike "a" "u1")]
                "offline" (or_introl eq_refl)) as H.
  destruct (write_resume _ _ _) as [st2 eff2].
  destruct H as (Hc & He & _). split; [exact Hc|exact He].
Defined.

(** On the event loop: a click whose durable write fails leaves the
    collection the click found, whether or not the click patched it. *)
Lemma click_then_failure_restores (w : World) (user : option User)
    (target e : string) :
  mediaContent
    (store (run w [ClickLike user target;
                   SettleWrite (length (writes w)) (Js.Failed e)])) =
  mediaContent (store w) ∧
  mediaContent
    (store (run w [ClickFollow user target;
                   SettleWrite (length (writes w)) (Js.Failed e)])) =
  mediaContent (store w).
Proof.
  assert (∀ (ws : list WriteCont), (ws ++ []) !! length ws = None) as Hnone.
  { intros ws. rewrite app_nil_r. by apply lookup_ge_None_2. }
  assert (∀ (ws : list WriteCont) k, (ws ++ [k]) !! length ws = Some k) as Hsome.
  { intros ws k. by rewrite list_lookup_middle. }
  split; cbn.
  - unfold handleLike. destruct user as [u|]; cbn; [|by rewrite Hnone].
    destruct (find _ _); cbn; [by rewrite Hsome|by rewrite Hnone].
  - unfold handleFollow. destruct user as [u|]; cbn; [|by rewrite Hnone].
    destruct (find _ _); cbn; [by rewrite Hsome|by rewrite Hnone].
Qed.

End Rollback.

(** ** Follow flags *)

Section FollowFlags.

Import MediaPage.

Lemma follows_agree_same_creator follows items :
  follows_agree follows items → same_creator_agree items.
Proof.
  unfold follows_agree. rewrite Forall_forall.
  intros H m1 m2 H1 H2 Hc. rewrite (H m1 H1), (H m2 H2). by rewrite Hc.
Qed.

Lemma enrich_follows_agree mediaData allLikes userLikes userFollows :
  follows_agree
    (fun c => bool_decide (c ∈ map follow_creator_name userFollows))
    (enrich mediaData allLikes userLikes userFollows).
Proof.
  unfold follows_agree, enrich.
  induction mediaData as [|item rest IH]; cbn [map]; constructor; [|exact IH].
  cbn. unfold userFollowsSet. by rewrite in_rows.
Qed.

Lemma follow_patch_agree follows creatorName items :
  follows_agree follows items →
  follows_agree (toggle_follow follows creatorName)
    (map (follow_patch creatorName (follows creatorName)) items).
Proof.
  unfold follows_agree. induction 1 as [|m items Hm _ IH]; cbn [map];
    constructor; [|exact IH].
  rewrite follow_patch_creator. unfold follow_patch, toggle_follow.
  case_bool_decide; [reflexivity|exact Hm].
Qed.

Lemma same_creator_agree_nil : same_creator_agree [].
Proof. intros m1 m2 H. by apply elem_of_nil in H. Qed.

Lemma same_creator_agree_like_patch mediaId b items :
  same_creator_agree items →
  same_creator_agree (map (like_patch mediaId b) items).
Proof.
  intros H m1 m2.
  change (map (like_patch mediaId b) items) with (like_patch mediaId b <$> items).
  rewrite !list_elem_of_fmap. intros (x1 & -> & H1) (x2 & -> & H2) Hc.
  assert (∀ x, creator_name (like_patch mediaId b x) = creator_name x ∧
               is_following (like_patch mediaId b x) = is_following x) as Hp.
  { intros x. unfold like_patch. by case_bool_decide. }
  destruct (Hp x1) as [Hc1 ->], (Hp x2) as [Hc2 ->].
  apply H; congruence.
Qed.

Lemma same_creator_agree_follow_patch creatorName b items :
  same_creator_agree items →
  same_creator_agree (map (follow_patch creatorName b) items).
Proof.
  intros H m1 m2.
  change (map (follow_patch creatorName b) items)
    with (follow_patch creatorName b <$> items).
  rewrite !list_elem_of_fmap. intros (x1 & -> & H1) (x2 & -> & H2).
  rewrite !follow_patch_creator. intros Hc. unfold follow_patch.
  rewrite <- Hc. case_bool_decide; [reflexivity|]. by apply H.
Qed.

Lemma fetch_resume_agree k a st :
  same_creator_agree (mediaContent st) →
  same_creator_agree (mediaContent (fetch_resume k a st).1.1).
Proof.
  intros H.
  assert (∀ md al ul uf, same_creator_agree (enrich md al ul uf)) as He.
  { intros. eapply follows_agree_same_creator, enrich_follows_agree. }
  destruct k, a as [r|r|r]; cbn -[enrich]; try exact H.
  - destruct r as [[[|item rest]|]|e]; cbn;
      first [exact H | apply same_creator_agree_nil].
  - destruct user; cbn -[enrich]; [exact H|apply He].
  - apply He.
Qed.

Lemma step_follow_inv w e : follow_inv w → follow_inv (step w e).
Proof.
  unfold follow_inv. intros [Hc Hw].
  destruct e as [u t|u t|i a|u m|u c|i r]; cbn.
  - unfold fetchMediaContent.
    destruct (fetchInProgress (store w)); cbn; by split.
  - unfold fetchMediaContent.
    destruct (fetchInProgress (store w)); cbn; by split.
  - destruct (fetches w !! i) as [k|]; [|by split].
    pose proof (fetch_resume_agree k a (store w) Hc) as Hr.
    destruct (fetch_resume k a (store w)) as [[st' k'] eff]. cbn in *.
    by split.
  - unfold handleLike. destruct u; [|cbn; rewrite app_nil_r; by split].
    destruct (find _ _); cbn; [|rewrite app_nil_r; by split]. split.
    + by apply same_creator_agree_like_patch.
    + apply Forall_app. split; [exact Hw|by constructor].
  - unfold handleFollow. destruct u; [|cbn; rewrite app_nil_r; by split].
    destruct (find _ _); cbn; [|rewrite app_nil_r; by split]. split.
    + by apply same_creator_agree_follow_patch.
    + apply Forall_app. split; [exact Hw|by constructor].
  - destruct (writes w !! i) as [k|] eqn:Hk; [|by split].
    assert (same_creator_agree (snapshot k)) as Hs.
    { rewrite Forall_forall in Hw. apply Hw. by eapply list_elem_of_lookup_2. }
    unfold write_resume. destruct (Js.error r); cbn.
    + destruct k; cbn; (split; [exact Hs|by apply Forall_delete]).
    + split; [exact Hc|by apply Forall_delete].
Qed.

Lemma run_follow_inv es : ∀ w, follow_inv w → follow_inv (run w es).
Proof.
  induction es as [|e es IH]; intros w Hw; [done|].
  apply (IH (step w e)), step_follow_inv, Hw.
Qed.

(** C8, as the code has it.  The items a fetch stores carry, each, whether
    the viewer's follow rows read in that fetch name its creator.  A follow
    click on a creator some item has gives every item of that creator the
    inverse of the flag of the first such item and leaves every other item
    as it is; so a collection that carried the viewer's follows before the
    click carries them with that creator toggled after it.  A failed write
    installs the snapshot the click took, with the flags of that earlier
    moment.  After every fetch, click, confirmation and rollback, in any
    order, the items of one creator have the same flag. *)
Theorem follow_flags_per_creator (u : User) (creatorName : string)
    (st later : Store) (item : MediaItem) (e : string)
    (mediaData : list MediaItem) (allLikes : option (list LikeRow))
    (userLikes : list LikeRow) (userFollows : list FollowRow)
    (es : list Event) :
  find_creator creatorName (mediaContent st) = Some item →
  let fetched := enrich mediaData allLikes userLikes userFollows in
  let toggled := Some (negb (Js.truthy (is_following item))) in
  same_creator_agree (mediaContent (store (run initialWorld es))) ∧
  (follows_agree
     (fun c => bool_decide (c ∈ map follow_creator_name userFollows)) fetched ∧
   same_creator_agree fetched) ∧
  ∃ st1 k eff,
    handleFollow (Some u) (mediaContent st) creatorName st = (st1, Some k, eff) ∧
    Forall2
      (fun m m' =>
         m' = if bool_decide (creator_name m = creatorName)
              then with_engagement m (likes_count m) (is_liked m) toggled
              else m)
      (mediaContent st) (mediaContent st1) ∧
    (∀ follows, follows_agree follows (mediaContent st) →
       follows_agree (toggle_follow follows creatorName) (mediaContent st1)) ∧
    (same_creator_agree (mediaContent st) →
     same_creator_agree (mediaContent st1)) ∧
    mediaContent (write_resume k (Js.Failed e) later).1 = mediaContent st.
Proof.
  intros Hfind fetched toggled. split; [|split].
  - apply (run_follow_inv es initialWorld).
    split; [apply same_creator_agree_nil|constructor].
  - pose proof (enrich_follows_agree mediaData allLikes userLikes userFollows)
      as H.
    split; [exact H|exact (follows_agree_same_creator _ _ H)].
  - destruct (find_creator_Some _ _ _ Hfind) as [Hc Hin].
    unfold handleFollow. fold (find_creator creatorName (mediaContent st)).
    rewrite Hfind. do 3 eexists. split; [reflexivity|].
    cbn [mediaContent setMediaContent write_resume Js.error fst setError].
    split; [|split; [|split; [|reflexivity]]].
    + apply Forall2_map_r. intros m. reflexivity.
    + intros follows Hagree.
      assert (Js.truthy (is_following item) = follows creatorName) as ->.
      { unfold follows_agree in Hagree. rewrite Forall_forall in Hagree.
        rewrite (Hagree item Hin), Hc. reflexivity. }
      by apply follow_patch_agree.
    + apply same_creator_agree_follow_patch.
Qed.

(** [follow_flags_per_creator] on two items of "Jo" and one of "Al", none
    followed: following "Jo" flags both items of "Jo" and only them, and the
    failure of the write brings the three items back; a fetch of two rows
    of "Al" and one of "Jo" with a follow row for "Al" flags the rows of
    "Al" and only them. *)
Lemma follow_flags_per_creator_witness :
  let items := [page_item "a" "Jo" 2 false false; page_item "b" "Al" 7 true false;
                page_item "c" "Jo" 0 false false] in
  let st := mkStore items false None false in
  let rows := [page_row "d" "Al" None; page_row "e" "Jo" None;
               page_row "f" "Al" None] in
  let follow_rows := [{| follow_creator_name := "Al" |}] in
  find_creator "Jo" items = Some (page_item "a" "Jo" 2 false false) ∧
  (map is_following (enrich rows None [] follow_rows) =
     [Some true; Some false; Some true] ∧
   follows_agree
     (fun c => bool_decide (c ∈ map follow_creator_name follow_rows))
     (enrich rows None [] follow_rows)) ∧
  ∃ st1 k eff,
    handleFollow (Some {| user_id := "u1" |}) items "Jo" st = (st1, Some k, eff) ∧
    mediaContent st1 =
      [page_item "a" "Jo" 2 false true; page_item "b" "Al" 7 true false;
       page_item "c" "Jo" 0 false true] ∧
    mediaContent (write_resume k (Js.Failed "offline") st1).1 = items.
Proof.
  cbn zeta. split; [reflexivity|].
  destruct (follow_flags_per_creator {| user_id := "u1" |} "Jo"
              (mkStore [page_item "a" "Jo" 2 false false;
                        page_item "b" "Al" 7 true false;
                        page_item "c" "Jo" 0 false false] false None false)
              (mkStore [page_item "a" "Jo" 2 false true;
                        page_item "b" "Al" 7 true false;
                        page_item "c" "Jo" 0 false true] false None false)
              (page_item "a" "Jo" 2 false false) "offline"
              [page_row "d" "Al" None; page_row "e" "Jo" None;
               page_row "f" "Al" None]
              None [] [{| follow_creator_name := "Al" |}]
              [ClickFollow (Some {| user_id := "u1" |}) "Jo"] eq_refl)
    as (_ & (Hfetched & _) & st1 & k & eff & Hcall & _ & _ & _ & Hback).
  split; [split; [vm_compute; reflexivity|exact Hfetched]|].
  exists st1, k, eff. split; [exact Hcall|].
  cbn in Hcall. injection Hcall as <- <- _. split; [reflexivity|exact Hback].
Defined.

(** C8 as stated fails after a rollback.  A signed-in viewer loads one item
    of "Jo" and one of "Al", following neither.
    First run: the viewer follows "Jo", then "Al"; the insert for "Al" is
    confirmed, the insert for "Jo" then fails.  The rollback installs the
    snapshot taken at the click on "Jo", so "Al" is shown as not followed
    although the viewer follows "Al".
    Second run: the viewer follows "Jo"; a fetch then delivers a follow row
    for "Al" and shows "Al" followed; the insert for "Jo" then fails and
    the rollback shows "Al" as not followed. *)
Lemma rollback_shows_followed_creator_unfollowed :
  let u := Some {| user_id := "u1" |} in
  let rows := Js.Resolved (Some [page_row "a" "Jo" None; page_row "b" "Al" None]) in
  let no_likes : Js.Response (list LikeRow) := Js.Resolved (Some []) in
  let loaded :=
    run initialWorld
      [CallFetch u "stream"; SettleFetch 0 (MediaRows rows);
       SettleFetch 0 (LikeRows no_likes); SettleFetch 0 (LikeRows no_likes);
       SettleFetch 0 (FollowRows (Js.Resolved (Some [])))] in
  let confirmed :=
    run loaded [ClickFollow u "Jo"; ClickFollow u "Al";
                SettleWrite 1 (Js.Resolved None)] in
  let rolled := step confirmed (SettleWrite 0 (Js.Failed "offline")) in
  let al_followed := [{| follow_creator_name := "Al" |}] in
  let refetched :=
    run loaded
      [ClickFollow u "Jo"; CallFetch u "stream"; SettleFetch 0 (MediaRows rows);
       SettleFetch 0 (LikeRows no_likes); SettleFetch 0 (LikeRows no_likes);
       SettleFetch 0 (FollowRows (Js.Resolved (Some al_followed)))] in
  let rolled' := step refetched (SettleWrite 0 (Js.Failed "offline")) in
  (List.filter is_durable_write (trace confirmed) =
     [Backend (InsertFollow "Jo" "u1"); Backend (InsertFollow "Al" "u1")] ∧
   mediaContent (store confirmed) =
     [page_item "a" "Jo" 0 false true; page_item "b" "Al" 0 false true] ∧
   mediaContent (store rolled) =
     [page_item "a" "Jo" 0 false false; page_item "b" "Al" 0 false false] ∧
   writes rolled = [] ∧
   ∀ follows, follows "Al" = true →
     ¬ follows_agree follows (mediaContent (store rolled))) ∧
  (mediaContent (store refetched) =
     [page_item "a" "Jo" 0 false false; page_item "b" "Al" 0 false true] ∧
   mediaContent (store rolled') =
     [page_item "a" "Jo" 0 false false; page_item "b" "Al" 0 false false] ∧
   ¬ follows_agree
       (fun c => bool_decide (c ∈ map follow_creator_name al_followed))
       (mediaContent (store rolled'))).
Proof.
  cbn zeta.
  assert (∀ (follows : string → bool), follows "Al" = true →
            ¬ follows_agree follows
                [page_item "a" "Jo" 0 false false;
                 page_item "b" "Al" 0 false false]) as Hno.
  { intros follows HAl Hagree. unfold follows_agree in Hagree.
    apply Forall_cons in Hagree as [_ Hagree].
    apply Forall_cons in Hagree as [Hb _].
    cbn in Hb. rewrite HAl in Hb. discriminate Hb. }
  split.
  - split; [vm_compute; reflexivity|]. split; [vm_compute; reflexivity|].
    match goal with
    | |- ?c = ?l ∧ _ => assert (c = l) as Hc by (vm_compute; reflexivity)
    end.
    split; [exact Hc|]. split; [vm_compute; reflexivity|].
    intros follows HAl. rewrite Hc. by apply Hno.
  - split; [vm_compute; reflexivity|].
    match goal with
    | |- ?c = ?l ∧ _ => assert (c = l) as Hc by (vm_compute; reflexivity)
    end.
    split; [exact Hc|]. rewrite Hc. by apply Hno.
Qed.

End FollowFlags.

(** ** Absent targets *)

Section AbsentTarget.

Import MediaPage.

(** C9: when no item of the collection has the identifier passed to
    [handleLike], or the creator name passed to [handleFollow], the handler
    leaves the whole state as it is (collection, error, flags), waits for
    nothing and issues no durable write; for a signed-in viewer it has no
    effect at all, and without a viewer its only effects are the sign-in
    alert and the redirect of the guard that precedes the lookup. *)
Theorem absent_target_noop (user : option User) (st : Store)
    (mediaId creatorName : string) :
  find_id mediaId (mediaContent st) = None →
  find_creator creatorName (mediaContent st) = None →
  (let '(st', k, eff) := handleLike user (mediaContent st) mediaId st in
   st' = st ∧ k = None ∧
   Forall (fun x => is_durable_write x = false) eff ∧
   eff = match user with
         | Some _ => []
         | None => [Alert "Please sign in to like content."; Navigate "/signin"]
         end) ∧
  (let '(st', k, eff) := handleFollow user (mediaContent st) creatorName st in
   st' = st ∧ k = None ∧
   Forall (fun x => is_durable_write x = false) eff ∧
   eff = match user with
         | Some _ => []
         | None => [Alert "Please sign in to follow creators.";
                    Navigate "/signin"]
         end).
Proof.
  unfold find_id, find_creator, handleLike, handleFollow.
  intros -> ->. destruct user; repeat split; repeat constructor.
Qed.

(** [absent_target_noop] for a signed-in viewer and a collection that has
    neither item "z" nor creator "Zed". *)
Lemma absent_target_noop_witness :
  let st := mkStore [page_item "a" "Jo" 2 false false] false None false in
  let u := Some {| user_id := "u1" |} in
  find_id "z" (mediaContent st) = None ∧
  find_creator "Zed" (mediaContent st) = None ∧
  handleLike u (mediaContent st) "z" st = (st, None, []) ∧
  handleFollow u (mediaContent st) "Zed" st = (st, None, []).
Proof.
  cbn zeta.
  pose proof (absent_target_noop (Some {| user_id := "u1" |})
                (mkStore [page_item "a" "Jo" 2 false false] false None false)
                "z" "Zed" eq_refl eq_refl) as [Hl Hf].
  split; [reflexivity|]. split; [reflexivity|].
  split.
  - destruct (handleLike _ _ _ _) as [[st' k] eff].
    destruct Hl as (-> & -> & _ & ->). reflexivity.
  - destruct (handleFollow _ _ _ _) as [[st' k] eff].
    destruct Hf as (-> & -> & _ & ->). reflexivity.
Defined.

End AbsentTarget.

(** ** Scenarios of the specification *)

Section Scenarios.

(** Two like edges on "a", one of them the viewer's: 2 likes, liked. *)
Example page_two_likes :
  MediaPage.enrich [page_row "a" "Jo" None]
    (Some [{| MediaPage.media_id := "a" |}; {| MediaPage.media_id := "a" |}])
    [{| MediaPage.media_id := "a" |}] [] =
  [page_item "a" "Jo" 2 true false].
Proof. vm_compute. reflexivity. Qed.

Example hook_two_likes :
  map (fun m => (UseMediaData.like_count m, UseMediaData.is_liked m,
                 UseMediaData.is_followed m))
    (UseMediaData.enrich (Some "u1") [hook_row "a" "Jo" (Some 0)]
       (Some [{| UseMediaData.media_id := "a"; UseMediaData.user_id := "u1" |};
              {| UseMediaData.media_id := "a"; UseMediaData.user_id := "u2" |}])
       (Some [])) =
  [(Some 2, Some true, Some false)].
Proof. vm_compute. reflexivity. Qed.

(** The computed count wins over a stored counter as soon as one edge
    references the item. *)
Example page_computed_wins :
  map MediaPage.likes_count
    (MediaPage.enrich [page_row "a" "Jo" (Some 5)]
       (Some [{| MediaPage.media_id := "a" |}]) [] []) = [Some 1].
Proof. vm_compute. reflexivity. Qed.

(** A stale handler: the collection was replaced by a fetch between the
    patch and the failure of the write; the rollback installs the
    snapshot, not an inverse of the patch. *)
Example rollback_after_refetch :
  let items := [page_item "a" "Jo" 2 false false] in
  let refetched := [page_item "a" "Jo" 9 false false] in
  MediaPage.mediaContent
    (MediaPage.write_resume (MediaPage.LikeWrite items) (Js.Failed "offline")
       (MediaPage.mkStore refetched false None false)).1 = items.
Proof. reflexivity. Qed.

End Scenarios.


(** ** Further properties of the fetch cycle *)

Section CycleOutcome.

Import MediaPage.

Lemma requests_app effs1 effs2 :
  requests (effs1 ++ effs2) = requests effs1 ++ requests effs2.
Proof. unfold requests. apply omap_app. Qed.

(** The closed form of a fetch cycle that starts on an idle component. *)
Lemma cycle_store w user activeTab mr lr ulr ufr :
  fetchInProgress (store w) = false → fetches w = [] →
  let w2 := run (step w (CallFetch user activeTab)) (answers mr lr ulr ufr) in
  store w2 = cycle_outcome user mr lr ulr ufr ∧
  requests (trace w2) = requests (trace w) ++ cycle_requests user activeTab mr ∧
  writes w2 = writes w.
Proof.
  destruct w as [[mc ld er fl] fs ws tr]. cbn -[enrich requests]. intros -> ->.
  assert (∀ (st st' : Store) (a b c : list Request) (x y : list WriteCont),
            st = st' → a = b ++ c → x = y →
            st = st' ∧ a = b ++ c ∧ x = y) as Hfin by done.
  destruct mr as [[[|item rest]|]|e]; cbn -[enrich requests];
    rewrite ?requests_app, <- ?app_assoc; try (apply Hfin; reflexivity).
  unfold viewer_rows, rows_of.
  destruct user as [u|], lr as [d|e]; cbn -[enrich requests];
    rewrite ?requests_app, <- ?app_assoc; try (apply Hfin; reflexivity);
    destruct ulr as [ud|ue], ufr as [fd|fe]; cbn -[enrich requests];
    rewrite ?requests_app, <- ?app_assoc; apply Hfin; reflexivity.
Qed.

(** The error message is set at the end of a fetch cycle exactly when the
    content read reported an error; an error of the read of all likes, of
    the viewer's likes or of the viewer's follows never sets it, and an
    error shown before the cycle is gone. *)
Theorem fetch_error_iff_content_read_failed (w : World) (user : option User)
    (activeTab : string) (mr : Js.Response (list MediaItem))
    (lr ulr : Js.Response (list LikeRow)) (ufr : Js.Response (list FollowRow)) :
  fetchInProgress (store w) = false → fetches w = [] →
  let w2 := run (step w (CallFetch user activeTab)) (answers mr lr ulr ufr) in
  (is_Some (error (store w2)) ↔ is_Some (Js.error mr)) ∧
  (is_Some (Js.error mr) →
   error (store w2) = Some "Failed to load media content. Please try again.").
Proof.
  intros Hidle Hnone w2.
  destruct (cycle_store w user activeTab mr lr ulr ufr Hidle Hnone) as (Hs & _).
  fold w2 in Hs. rewrite Hs.
  destruct mr as [[[|item rest]|]|e]; cbn; (split; [split|]);
    intros [x Hx]; try discriminate Hx; eauto.
Qed.

Lemma fetch_error_iff_content_read_failed_witness :
  let w := mkWorld (mkStore [] false (Some "Failed to update like. Please try again.")
                      false) [] [] [] in
  let w2 := run (step w (CallFetch None "stream"))
              (answers (Js.Resolved (Some [page_row "a" "Jo" None]))
                 (Js.Failed "denied") (Js.Failed "denied") (Js.Failed "denied")) in
  fetchInProgress (store w) = false ∧ fetches w = [] ∧
  ¬ is_Some (error (store w2)).
Proof.
  cbn zeta. split; [reflexivity|]. split; [reflexivity|].
  pose proof (fetch_error_iff_content_read_failed
                (mkWorld (mkStore [] false
                            (Some "Failed to update like. Please try again.") false)
                   [] [] [])
                None "stream" (Js.Resolved (Some [page_row "a" "Jo" None]))
                (Js.Failed "denied") (Js.Failed "denied") (Js.Failed "denied")
                eq_refl eq_refl) as [Hiff _].
  intros H. apply Hiff in H. destruct H as [x Hx]. discriminate Hx.
Defined.

(** The reads of one fetch cycle, in the order they are issued: the content
    read alone when it fails or delivers no row; otherwise the content read
    and the read of all likes, followed for a signed-in viewer by the reads
    of that viewer's likes and follows. *)
Theorem fetch_cycle_reads (w : World) (user : option User)
    (activeTab : string) (mr : Js.Response (list MediaItem))
    (lr ulr : Js.Response (list LikeRow)) (ufr : Js.Response (list FollowRow)) :
  fetchInProgress (store w) = false → fetches w = [] →
  let w2 := run (step w (CallFetch user activeTab)) (answers mr lr ulr ufr) in
  requests (trace w2) =
  requests (trace w) ++
  match mr with
  | Js.Resolved (Some (_ :: _)) =>
      SelectMedia activeTab :: SelectAllLikes ::
      match user with
      | Some u => [SelectUserLikes (user_id u); SelectUserFollows (user_id u)]
      | None => []
      end
  | _ => [SelectMedia activeTab]
  end.
Proof.
  intros Hidle Hnone w2.
  by destruct (cycle_store w user activeTab mr lr ulr ufr Hidle Hnone)
    as (_ & Hr & _).
Qed.

Lemma fetch_cycle_reads_witness :
  let u := {| user_id := "u1" |} in
  let w2 := run (step initialWorld (CallFetch (Some u) "blog"))
              (answers (Js.Resolved (Some [page_row "a" "Jo" None]))
                 (Js.Failed "denied") (Js.Resolved None) (Js.Resolved None)) in
  fetchInProgress (store initialWorld) = false ∧ fetches initialWorld = [] ∧
  requests (trace w2) =
  [SelectMedia "blog"; SelectAllLikes; SelectUserLikes "u1"; SelectUserFollows "u1"].
Proof.
  cbn zeta. split; [reflexivity|]. split; [reflexivity|].
  exact (fetch_cycle_reads initialWorld (Some {| user_id := "u1" |}) "blog"
           (Js.Resolved (Some [page_row "a" "Jo" None]))
           (Js.Failed "denied") (Js.Resolved None) (Js.Resolved None)
           eq_refl eq_refl).
Defined.

(** A fetch cycle replaces the state wholesale: two idle components that
    get the same answers for the same viewer end in the same state, whatever
    items, error or optimistic patches each held before, and the handlers
    suspended on a write stay suspended. *)
Theorem fetch_result_ignores_previous_state (w w' : World)
    (user : option User) (activeTab : string)
    (mr : Js.Response (list MediaItem))
    (lr ulr : Js.Response (list LikeRow)) (ufr : Js.Response (list FollowRow)) :
  fetchInProgress (store w) = false → fetches w = [] →
  fetchInProgress (store w') = false → fetches w' = [] →
  let w2 := run (step w (CallFetch user activeTab)) (answers mr lr ulr ufr) in
  let w2' := run (step w' (CallFetch user activeTab)) (answers mr lr ulr ufr) in
  store w2 = store w2' ∧ writes w2 = writes w ∧ writes w2' = writes w'.
Proof.
  intros H1 H2 H1' H2' w2 w2'.
  destruct (cycle_store w user activeTab mr lr ulr ufr H1 H2) as (Hs & _ & Hw).
  destruct (cycle_store w' user activeTab mr lr ulr ufr H1' H2') as (Hs' & _ & Hw').
  fold w2 in Hs, Hw. fold w2' in Hs', Hw'. by rewrite Hs, Hs'.
Qed.

Lemma fetch_result_ignores_previous_state_witness :
  let w := mkWorld (mkStore [page_item "a" "Jo" 3 true false] false None false)
             [] [LikeWrite [page_item "a" "Jo" 2 false false]] [] in
  let mr := Js.Resolved (Some [page_row "a" "Jo" None]) in
  let lr := Js.Resolved (Some [{| media_id := "a" |}]) in
  let w2 := run (step w (CallFetch None "stream"))
              (answers mr lr lr (Js.Resolved None)) in
  let w2' := run (step initialWorld (CallFetch None "stream"))
               (answers mr lr lr (Js.Resolved None)) in
  fetchInProgress (store w) = false ∧ fetches w = [] ∧
  fetchInProgress (store initialWorld) = false ∧ fetches initialWorld = [] ∧
  store w2 = store w2' ∧
  mediaContent (store w2) = [page_item "a" "Jo" 1 false false].
Proof.
  cbn zeta. do 4 (split; [reflexivity|]).
  destruct (fetch_result_ignores_previous_state
              (mkWorld (mkStore [page_item "a" "Jo" 3 true false] false None false)
                 [] [LikeWrite [page_item "a" "Jo" 2 false false]] [])
              initialWorld None "stream"
              (Js.Resolved (Some [page_row "a" "Jo" None]))
              (Js.Resolved (Some [{| media_id := "a" |}]))
              (Js.Resolved (Some [{| media_id := "a" |}]))
              (Js.Resolved None) eq_refl eq_refl eq_refl eq_refl) as (Hs & _).
  split; [exact Hs|]. vm_compute. reflexivity.
Defined.

End CycleOutcome.

(** ** Further properties of enrichment *)

Section EnrichmentFlags.

(** Enrichment on the page touches the three engagement fields only, and
    sets the two flags by membership: an item is liked exactly when one of
    the viewer's like rows carries its identifier, and followed exactly when
    one of the viewer's follow rows carries its creator name, whatever the
    read of all likes delivered. *)
Theorem page_enrich_flags (mediaData : list MediaPage.MediaItem)
    (allLikes : option (list MediaPage.LikeRow))
    (userLikes : list MediaPage.LikeRow)
    (userFollows : list MediaPage.FollowRow) :
  Forall2
    (fun row item =>
       display_of item = display_of row ∧
       MediaPage.is_liked item =
         Some (bool_decide
                 (MediaPage.id row ∈ map MediaPage.media_id userLikes)) ∧
       MediaPage.is_following item =
         Some (bool_decide
                 (MediaPage.creator_name row ∈
                  map MediaPage.follow_creator_name userFollows)))
    mediaData (MediaPage.enrich mediaData allLikes userLikes userFollows).
Proof.
  unfold MediaPage.enrich. apply Forall2_map_r. intros row.
  split; [reflexivity|]. cbn.
  unfold MediaPage.userLikesSet, MediaPage.userFollowsSet.
  by rewrite !in_rows.
Qed.

Lemma hook_likes_fold userId (rows : list UseMediaData.LikeRow) :
  ∀ (acc : gmap string Z * gset string) (x : string),
    x ∈ (foldl (UseMediaData.count_like userId) acc rows).2 ↔
    x ∈ acc.2 ∨ hook_liked userId x rows.
Proof.
  unfold hook_liked.
  induction rows as [|row rows IH]; intros acc x; cbn [foldl].
  - split; [by left|]. intros [H|(_ & r & Hr & _)]; [done|].
    by apply elem_of_nil in Hr.
  - rewrite IH. unfold UseMediaData.count_like, UseMediaData.is_viewer.
    destruct (Js.truthy_str userId) eqn:Ht; cbn [andb].
    + case_bool_decide as Hu; cbn [snd].
      * rewrite elem_of_union, elem_of_singleton. split.
        -- intros [[->|H]|(_ & r & Hr & Hm & Hv)].
           ++ right. split; [done|]. exists row. split; [left|done].
           ++ by left.
           ++ right. split; [done|]. exists r. split; [by right|done].
        -- intros [H|(_ & r & Hr & Hm & Hv)]; [by left; right|].
           apply elem_of_cons in Hr as [->|Hr]; [left; left; done|].
           right. split; [done|]. by exists r.
      * split.
        -- intros [H|(_ & r & Hr & Hm & Hv)]; [by left|].
           right. split; [done|]. exists r. split; [by right|done].
        -- intros [H|(_ & r & Hr & Hm & Hv)]; [by left|].
           apply elem_of_cons in Hr as [->|Hr]; [done|].
           right. split; [done|]. by exists r.
    + cbn [snd]. split.
      * intros [H|(Hf & _)]; [by left|done].
      * intros [H|(Hf & _)]; [by left|done].
Qed.

Lemma hook_follows_fold userId (rows : list UseMediaData.FollowRow) :
  ∀ (acc : gset string) (x : string),
    x ∈ foldl (UseMediaData.add_follow userId) acc rows ↔
    x ∈ acc ∨ ∃ row, row ∈ rows ∧ UseMediaData.creator_name row = x ∧
                     userId = Some (UseMediaData.follower_id row).
Proof.
  induction rows as [|row rows IH]; intros acc x; cbn [foldl].
  - split; [by left|]. intros [H|(r & Hr & _)]; [done|].
    by apply elem_of_nil in Hr.
  - rewrite IH. unfold UseMediaData.add_follow.
    case_bool_decide as Hu.
    + rewrite elem_of_union, elem_of_singleton. split.
      * intros [[->|H]|(r & Hr & Hm & Hv)].
        -- right. exists row. split; [left|done].
        -- by left.
        -- right. exists r. split; [by right|done].
      * intros [H|(r & Hr & Hm & Hv)]; [by left; right|].
        apply elem_of_cons in Hr as [->|Hr]; [left; left; done|].
        right. by exists r.
    + split.
      * intros [H|(r & Hr & Hm & Hv)]; [by left|].
        right. exists r. split; [by right|done].
      * intros [H|(r & Hr & Hm & Hv)]; [by left|].
        apply elem_of_cons in Hr as [->|Hr]; [done|].
        right. by exists r.
Qed.

Lemma hook_scan_likes_elem userId likesData x :
  x ∈ (UseMediaData.scan_likes userId likesData).2 ↔
  hook_liked userId x (Js.or_nil likesData).
Proof.
  destruct likesData as [rows|]; cbn [UseMediaData.scan_likes Js.or_nil].
  - rewrite hook_likes_fold. cbn [snd]. split; [|by right].
    intros [H|H]; [by apply elem_of_empty in H|exact H].
  - cbn [snd]. unfold hook_liked. split.
    + intros H. by apply elem_of_empty in H.
    + intros (_ & r & Hr & _). by apply elem_of_nil in Hr.
Qed.

Lemma hook_scan_follows_elem userId followsData x :
  x ∈ UseMediaData.scan_follows userId followsData ↔
  hook_followed userId x (Js.or_nil followsData).
Proof.
  unfold hook_followed.
  destruct followsData as [rows|]; cbn [UseMediaData.scan_follows Js.or_nil].
  - destruct (Js.truthy_str userId).
    + rewrite hook_follows_fold. split.
      * intros [H|H]; [by apply elem_of_empty in H|by split].
      * intros [_ H]. by right.
    + split; [|by intros [? _]]. intros H. by apply elem_of_empty in H.
  - split; [intros H; by apply elem_of_empty in H|].
    intros (_ & r & Hr & _). by apply elem_of_nil in Hr.
Qed.

(** Enrichment in the hook touches the three engagement fields only; an
    item is liked exactly when the viewer id is a non-empty string and some
    like row pairs it with the item, and followed exactly when the viewer id
    is non-empty and some follow row pairs it with the item's creator. *)
Theorem hook_enrich_flags (userId : option string)
    (items : list UseMediaData.MediaItem)
    (likesData : option (list UseMediaData.LikeRow))
    (followsData : option (list UseMediaData.FollowRow)) :
  Forall2
    (fun row item =>
       hook_display_of item = hook_display_of row ∧
       (∃ liked, UseMediaData.is_liked item = Some liked ∧
          (liked = true ↔
           hook_liked userId (UseMediaData.id row) (Js.or_nil likesData))) ∧
       (∃ followed, UseMediaData.is_followed item = Some followed ∧
          (followed = true ↔
           hook_followed userId (UseMediaData.creator row)
             (Js.or_nil followsData))))
    items (UseMediaData.enrich userId items likesData followsData).
Proof.
  unfold UseMediaData.enrich.
  pose proof (hook_scan_likes_elem userId likesData) as Hl.
  destruct (UseMediaData.scan_likes userId likesData) as [counts liked].
  cbn [snd] in Hl.
  apply Forall2_map_r. intros row. split; [reflexivity|]. cbn. split.
  - eexists. split; [reflexivity|]. by rewrite bool_decide_eq_true, Hl.
  - eexists. split; [reflexivity|].
    by rewrite bool_decide_eq_true, hook_scan_follows_elem.
Qed.

(** In the hook an empty string as viewer id counts as no viewer: nothing is
    liked or followed, even when rows carry the empty string as user id. *)
Theorem hook_empty_viewer_id (items : list UseMediaData.MediaItem)
    (likesData : option (list UseMediaData.LikeRow))
    (followsData : option (list UseMediaData.FollowRow)) :
  Forall (fun m => UseMediaData.is_liked m = Some false ∧
                   UseMediaData.is_followed m = Some false)
    (UseMediaData.enrich (Some "") items likesData followsData).
Proof.
  unfold UseMediaData.enrich.
  pose proof (hook_scan_likes_elem (Some "") likesData) as Hl.
  destruct (UseMediaData.scan_likes (Some "") likesData) as [counts liked].
  cbn [snd] in Hl.
  induction items as [|item rest IH]; cbn [map]; constructor; [|exact IH].
  cbn. split; f_equal; apply bool_decide_eq_false.
  - rewrite Hl. by intros [Hf _].
  - rewrite hook_scan_follows_elem. by intros [Hf _].
Qed.

End EnrichmentFlags.

Section ViewerReadFailure.

Import MediaPage.

Lemma page_enrich_no_viewer_likes md al uf :
  Forall (fun m => is_liked m = Some false) (enrich md al [] uf).
Proof.
  unfold enrich. induction md as [|item rest IH]; cbn [map]; constructor;
    [reflexivity|exact IH].
Qed.

Lemma page_enrich_no_viewer_follows md al ul :
  Forall (fun m => is_following m = Some false) (enrich md al ul []).
Proof.
  unfold enrich. induction md as [|item rest IH]; cbn [map]; constructor;
    [reflexivity|exact IH].
Qed.

(** When the content read delivers rows for a signed-in viewer and the read
    of that viewer's likes reports an error, the cycle still completes
    without an error message and no item is liked; when the read of the
    viewer's follows reports an error, no item is followed.  The like counts
    are those of the enrichment with the rows that were read. *)
Theorem viewer_read_failure_tolerated (w : World) (u : User)
    (activeTab : string) (item : MediaItem) (rest : list MediaItem)
    (lr ulr : Js.Response (list LikeRow)) (ufr : Js.Response (list FollowRow)) :
  fetchInProgress (store w) = false → fetches w = [] →
  let w2 := run (step w (CallFetch (Some u) activeTab))
              (answers (Js.Resolved (Some (item :: rest))) lr ulr ufr) in
  error (store w2) = None ∧
  mediaContent (store w2) =
    enrich (item :: rest) (Js.data lr) (rows_of ulr) (rows_of ufr) ∧
  (is_Some (Js.error ulr) →
   Forall (fun m => is_liked m = Some false) (mediaContent (store w2))) ∧
  (is_Some (Js.error ufr) →
   Forall (fun m => is_following m = Some false) (mediaContent (store w2))).
Proof.
  intros Hidle Hnone w2.
  destruct (cycle_store w (Some u) activeTab (Js.Resolved (Some (item :: rest)))
              lr ulr ufr Hidle Hnone) as (Hs & _).
  fold w2 in Hs. rewrite Hs. cbn -[enrich].
  split; [reflexivity|]. split; [reflexivity|].
  split.
  - intros [e He]. destruct ulr as [d|e']; [discriminate He|].
    apply page_enrich_no_viewer_likes.
  - intros [e He]. destruct ufr as [d|e']; [discriminate He|].
    apply page_enrich_no_viewer_follows.
Qed.

Lemma viewer_read_failure_tolerated_witness :
  let u := {| user_id := "u1" |} in
  let w2 := run (step initialWorld (CallFetch (Some u) "stream"))
              (answers (Js.Resolved (Some [page_row "a" "Jo" None]))
                 (Js.Resolved (Some [{| media_id := "a" |}]))
                 (Js.Failed "timeout")
                 (Js.Resolved (Some [{| follow_creator_name := "Jo" |}]))) in
  fetchInProgress (store initialWorld) = false ∧ fetches initialWorld = [] ∧
  error (store w2) = None ∧
  mediaContent (store w2) = [page_item "a" "Jo" 1 false true].
Proof.
  cbn zeta. split; [reflexivity|]. split; [reflexivity|].
  destruct (viewer_read_failure_tolerated initialWorld {| user_id := "u1" |}
              "stream" (page_row "a" "Jo" None) []
              (Js.Resolved (Some [{| media_id := "a" |}]))
              (Js.Failed "timeout")
              (Js.Resolved (Some [{| follow_creator_name := "Jo" |}]))
              eq_refl eq_refl) as (He & Hc & _).
  split; [exact He|]. rewrite Hc. vm_compute. reflexivity.
Defined.

End ViewerReadFailure.

(** ** Invariants of the page's event loop *)

Section LoopInvariant.

Import MediaPage.

Variables P Q : list MediaItem → Prop.
Hypothesis P_nil : P [].
Hypothesis P_enrich : ∀ md al ul uf, Q md → P (enrich md al ul uf).
Hypothesis P_like : ∀ mediaId b l, P l → P (map (like_patch mediaId b) l).
Hypothesis P_follow : ∀ c b l, P l → P (map (follow_patch c b) l).

Lemma fetch_resume_loop_inv k a st :
  Q (pending_rows k) →
  (∀ r, a = MediaRows r → Q (Js.or_nil (Js.data r))) →
  P (mediaContent st) →
  let '(st', k', _) := fetch_resume k a st in
  P (mediaContent st') ∧
  match k' with Some k2 => Q (pending_rows k2) | None => True end.
Proof.
  intros Hk Ha Hst.
  destruct k, a as [r|r|r]; cbn -[enrich] in *; try (split; assumption).
  - specialize (Ha r eq_refl).
    destruct r as [[[|item rest]|]|e]; cbn in *; split; auto.
  - destruct user; cbn -[enrich]; split; auto.
  - split; auto.
Qed.

Lemma step_loop_inv w e :
  Q (delivered_rows e) → loop_inv P Q w → loop_inv P Q (step w e).
Proof.
  unfold loop_inv. intros He (Hc & Hw & Hf).
  destruct e as [u t|u t|i a|u m|u c|i r]; cbn.
  - unfold fetchMediaContent. destruct (fetchInProgress (store w)); cbn.
    + by rewrite app_nil_r.
    + repeat split; try assumption. apply Forall_app. split; [assumption|].
      by repeat constructor.
  - unfold fetchMediaContent. destruct (fetchInProgress (store w)); cbn.
    + done.
    + repeat split; try assumption. apply Forall_app. split; [assumption|].
      by repeat constructor.
  - destruct (fetches w !! i) as [k|] eqn:Hk; [|done].
    assert (Q (pending_rows k)) as HQk.
    { rewrite Forall_forall in Hf. apply Hf. by eapply list_elem_of_lookup_2. }
    pose proof (fetch_resume_loop_inv k a (store w) HQk) as Hr.
    destruct (fetch_resume k a (store w)) as [[st' k'] eff]. cbn.
    destruct Hr as [Hp Hq]; [|assumption|].
    { intros r ->. exact He. }
    split; [assumption|]. split; [assumption|].
    destruct k'; [by apply Forall_insert|by apply Forall_delete].
  - unfold handleLike. destruct u; [|cbn; by rewrite app_nil_r].
    destruct (find _ _); cbn; [|by rewrite app_nil_r].
    split; [by apply P_like|]. split; [|assumption].
    apply Forall_app. split; [assumption|by constructor].
  - unfold handleFollow. destruct u; [|cbn; by rewrite app_nil_r].
    destruct (find _ _); cbn; [|by rewrite app_nil_r].
    split; [by apply P_follow|]. split; [|assumption].
    apply Forall_app. split; [assumption|by constructor].
  - destruct (writes w !! i) as [k|] eqn:Hk; [|done].
    assert (P (snapshot k)) as Hs.
    { rewrite Forall_forall in Hw. apply Hw. by eapply list_elem_of_lookup_2. }
    unfold write_resume. destruct (Js.error r); cbn.
    + destruct k; cbn; (split; [exact Hs|]); (split; [by apply Forall_delete|]);
        assumption.
    + split; [assumption|]. split; [by apply Forall_delete|assumption].
Qed.

Lemma run_loop_inv es :
  ∀ w, Forall (fun e => Q (delivered_rows e)) es →
       loop_inv P Q w → loop_inv P Q (run w es).
Proof.
  induction es as [|e es IH]; intros w Hes Hw; [done|].
  apply Forall_cons in Hes as [He Hes].
  apply (IH (step w e) Hes), step_loop_inv; assumption.
Qed.

Lemma initial_loop_inv : loop_inv P Q initialWorld.
Proof. unfold loop_inv. cbn. by repeat split. Qed.

End LoopInvariant.

Section ShownItems.

Import MediaPage.

Lemma displayed_count_enrich counts liked followed allLikes item :
  (∀ k, counts !! k =
        let n := edge_count media_id k (Js.or_nil allLikes) in
        if decide (n = 0) then None else Some n) →
  MediaView.displayed_count (enrich_item counts liked followed item) =
  shown_count (edge_count media_id (id item) (Js.or_nil allLikes))
    (likes_count item).
Proof.
  intros Hc. unfold MediaView.displayed_count.
  rewrite (page_enrich_item_count _ _ _ allLikes) by exact Hc.
  apply or_num_some0.
Qed.

Lemma shown_count_nonneg n stored :
  0 ≤ n → 0 ≤ Js.or_num stored 0 → 0 ≤ shown_count n stored.
Proof. intros Hn Hs. unfold shown_count. by case_decide. Qed.

Lemma nonneg_enrich md al ul uf :
  Forall count_nonneg md → Forall count_nonneg (enrich md al ul uf).
Proof.
  intros Hmd. unfold enrich.
  induction Hmd as [|item rest Hitem _ IH]; cbn [map]; constructor; [|exact IH].
  unfold count_nonneg.
  rewrite (displayed_count_enrich _ _ _ al) by apply page_likesCountMap_lookup.
  apply shown_count_nonneg; [apply edge_count_nonneg|exact Hitem].
Qed.

Lemma nonneg_like_patch mediaId b l :
  Forall count_nonneg l → Forall count_nonneg (map (like_patch mediaId b) l).
Proof.
  intros Hl.
  induction Hl as [|m rest Hm _ IH]; cbn [map]; constructor; [|exact IH].
  unfold like_patch. case_bool_decide; [|exact Hm].
  unfold count_nonneg, MediaView.displayed_count in *. cbn -[Js.or_num Z.max].
  rewrite or_num_some0. destruct b; lia.
Qed.

Lemma nonneg_follow_patch c b l :
  Forall count_nonneg l → Forall count_nonneg (map (follow_patch c b) l).
Proof.
  intros Hl.
  induction Hl as [|m rest Hm _ IH]; cbn [map]; constructor; [|exact IH].
  unfold follow_patch. case_bool_decide; exact Hm.
Qed.

(** If every content row the backend delivers has a stored like counter
    that is absent or not negative, then no item of the collection ever
    displays a negative like count, after any sequence of fetches, realtime
    events, toggles, confirmations and rollbacks. *)
Theorem displayed_count_never_negative (es : list Event) :
  Forall (fun e => Forall count_nonneg (delivered_rows e)) es →
  Forall count_nonneg (mediaContent (store (run initialWorld es))).
Proof.
  intros Hes.
  apply (run_loop_inv (Forall count_nonneg) (Forall count_nonneg)
           (Forall_nil_2 _) nonneg_enrich nonneg_like_patch nonneg_follow_patch
           es initialWorld Hes).
  apply initial_loop_inv; constructor.
Qed.

Lemma displayed_count_never_negative_witness :
  let u := Some {| user_id := "u1" |} in
  let es := [CallFetch u "stream";
             SettleFetch 0 (MediaRows (Js.Resolved (Some [page_row "a" "Jo" (Some 0)])));
             SettleFetch 0 (LikeRows (Js.Failed "denied"));
             SettleFetch 0 (LikeRows (Js.Resolved (Some [{| media_id := "a" |}])));
             SettleFetch 0 (FollowRows (Js.Resolved None));
             ClickLike u "a"] in
  Forall (fun e => Forall count_nonneg (delivered_rows e)) es ∧
  mediaContent (store (run initialWorld es)) = [page_item "a" "Jo" 0 false false] ∧
  Forall count_nonneg (mediaContent (store (run initialWorld es))).
Proof.
  cbn zeta.
  assert (Forall (fun e => Forall count_nonneg (delivered_rows e))
            [CallFetch (Some {| user_id := "u1" |}) "stream";
             SettleFetch 0 (MediaRows (Js.Resolved (Some [page_row "a" "Jo" (Some 0)])));
             SettleFetch 0 (LikeRows (Js.Failed "denied"));
             SettleFetch 0 (LikeRows (Js.Resolved (Some [{| media_id := "a" |}])));
             SettleFetch 0 (FollowRows (Js.Resolved None));
             ClickLike (Some {| user_id := "u1" |}) "a"]) as Hes.
  { repeat constructor. unfold count_nonneg. cbn. lia. }
  split; [exact Hes|]. split; [vm_compute; reflexivity|].
  exact (displayed_count_never_negative _ Hes).
Defined.

Lemma shaped_enrich md al ul uf : True → Forall well_shaped (enrich md al ul uf).
Proof.
  intros _. unfold enrich.
  induction md as [|item rest IH]; cbn [map]; constructor; [|exact IH].
  unfold well_shaped. cbn. eauto.
Qed.

Lemma shaped_like_patch mediaId b l :
  Forall well_shaped l → Forall well_shaped (map (like_patch mediaId b) l).
Proof.
  intros Hl.
  induction Hl as [|m rest Hm _ IH]; cbn [map]; constructor; [|exact IH].
  unfold like_patch. case_bool_decide; [|exact Hm].
  destruct Hm as (_ & _ & Hf). unfold well_shaped. cbn. eauto.
Qed.

Lemma shaped_follow_patch c b l :
  Forall well_shaped l → Forall well_shaped (map (follow_patch c b) l).
Proof.
  intros Hl.
  induction Hl as [|m rest Hm _ IH]; cbn [map]; constructor; [|exact IH].
  unfold follow_patch. case_bool_decide; [|exact Hm].
  destruct Hm as (Hc & Hl' & _). unfold well_shaped. cbn. eauto.
Qed.

(** Every item of the collection always carries its three engagement
    fields: a like count, a liked flag and a followed flag are present after
    any sequence of fetches, realtime events, toggles, confirmations and
    rollbacks, whatever rows and errors the backend delivers. *)
Theorem items_always_well_shaped (es : list Event) :
  Forall well_shaped (mediaContent (store (run initialWorld es))).
Proof.
  apply (run_loop_inv (Forall well_shaped) (fun _ => True)
           (Forall_nil_2 _) shaped_enrich shaped_like_patch shaped_follow_patch
           es initialWorld).
  - by apply Forall_true.
  - apply initial_loop_inv; constructor.
Qed.

End ShownItems.

(** ** Further properties of the toggles *)

Section ToggleFrame.

Import MediaPage.

Lemma Forall2_diag {A} (R : A → A → Prop) (l : list A) :
  (∀ x, R x x) → Forall2 R l l.
Proof. intros H. induction l; constructor; auto. Qed.

(** A click on a like or follow button never adds, removes or reorders
    items and never changes a display field.  A like click leaves every
    followed flag as it is and changes no item with another identifier; a
    follow click leaves every like count and liked flag as they are and
    changes no item of another creator.  This holds whether or not the
    viewer is signed in and the target exists. *)
Theorem click_keeps_items (w : World) (user : option User) (target : string) :
  Forall2
    (fun m m' =>
       display_of m' = display_of m ∧ is_following m' = is_following m ∧
       (id m ≠ target → m' = m))
    (mediaContent (store w))
    (mediaContent (store (step w (ClickLike user target)))) ∧
  Forall2
    (fun m m' =>
       display_of m' = display_of m ∧ likes_count m' = likes_count m ∧
       is_liked m' = is_liked m ∧ (creator_name m ≠ target → m' = m))
    (mediaContent (store w))
    (mediaContent (store (step w (ClickFollow user target)))).
Proof.
  split; cbn.
  - unfold handleLike. destruct user; [|cbn; by apply Forall2_diag].
    destruct (find _ _) as [found|]; cbn; [|by apply Forall2_diag].
    apply Forall2_map_r. intros m. unfold like_patch.
    case_bool_decide; [|done]. by repeat split.
  - unfold handleFollow. destruct user; [|cbn; by apply Forall2_diag].
    destruct (find _ _) as [found|]; cbn; [|by apply Forall2_diag].
    apply Forall2_map_r. intros m. unfold follow_patch.
    case_bool_decide; [|done]. by repeat split.
Qed.

Lemma find_creator_patch c b items :
  find_creator c (map (follow_patch c b) items) =
  follow_patch c b <$> find_creator c items.
Proof.
  unfold find_creator. induction items as [|m items IH]; [reflexivity|].
  cbn [map find]. rewrite follow_patch_creator.
  destruct (bool_decide (creator_name m = c)); [reflexivity|exact IH].
Qed.

Lemma follow_confirmed_content u c st item :
  find_creator c (mediaContent st) = Some item →
  mediaContent (follow_confirmed u c st) =
  map (follow_patch c (Js.truthy (is_following item))) (mediaContent st).
Proof.
  intros Hfind. unfold follow_confirmed, handleFollow.
  fold (find_creator c (mediaContent st)). rewrite Hfind. reflexivity.
Qed.

Lemma follow_confirmed_absent u c st :
  find_creator c (mediaContent st) = None → follow_confirmed u c st = st.
Proof.
  intros Hfind. unfold follow_confirmed, handleFollow.
  fold (find_creator c (mediaContent st)). by rewrite Hfind.
Qed.

Lemma follow_patch_twice c (follows : string → bool) m :
  is_following m = Some (follows (creator_name m)) →
  follow_patch c (negb (follows c)) (follow_patch c (follows c) m) = m.
Proof.
  intros Hm. unfold follow_patch.
  destruct (decide (creator_name m = c)) as [Heq|Hne].
  - rewrite (bool_decide_eq_true_2 _ Heq). cbn.
    rewrite (bool_decide_eq_true_2 _ Heq), negb_involutive.
    rewrite <- Heq, <- Hm. by destruct m.
  - by rewrite !(bool_decide_eq_false_2 _ Hne).
Qed.

(** Two confirmed follow toggles of the same creator, with no fetch in
    between, give back the whole collection exactly, provided its followed
    flags are present and agree per creator (as they do after a fetch);
    unlike the like count, nothing is floored. *)
Theorem double_toggle_follow (follows : string → bool) (u : User)
    (creatorName : string) (st : Store) :
  follows_agree follows (mediaContent st) →
  mediaContent
    (follow_confirmed u creatorName (follow_confirmed u creatorName st)) =
  mediaContent st.
Proof.
  intros Hagree.
  destruct (find_creator creatorName (mediaContent st)) as [item|] eqn:Hfind.
  - destruct (find_creator_Some _ _ _ Hfind) as [Hc Hin].
    assert (Js.truthy (is_following item) = follows creatorName) as Hwas.
    { unfold follows_agree in Hagree. rewrite Forall_forall in Hagree.
      by rewrite (Hagree item Hin), Hc. }
    pose proof (follow_confirmed_content u creatorName st item Hfind) as H1.
    rewrite Hwas in H1.
    assert (find_creator creatorName
              (mediaContent (follow_confirmed u creatorName st)) =
            Some (follow_patch creatorName (follows creatorName) item)) as Hfind1.
    { by rewrite H1, find_creator_patch, Hfind. }
    rewrite (follow_confirmed_content u creatorName _ _ Hfind1), H1.
    assert (Js.truthy
              (is_following (follow_patch creatorName (follows creatorName) item))
            = negb (follows creatorName)) as ->.
    { unfold follow_patch. by rewrite bool_decide_eq_true_2. }
    clear -Hagree. unfold follows_agree in Hagree.
    induction Hagree as [|m rest Hm _ IH]; [reflexivity|].
    cbn [map]. f_equal; [by apply follow_patch_twice|exact IH].
  - by rewrite !(follow_confirmed_absent u creatorName st Hfind).
Qed.

Lemma double_toggle_follow_witness :
  let items := [page_item "a" "Jo" 2 false false; page_item "b" "Al" 7 true true;
                page_item "c" "Jo" 0 true false] in
  let st := mkStore items false None false in
  let u := {| user_id := "u1" |} in
  follows_agree (fun c => bool_decide (c = "Al")) items ∧
  mediaContent (follow_confirmed u "Jo" st) =
    [page_item "a" "Jo" 2 false true; page_item "b" "Al" 7 true true;
     page_item "c" "Jo" 0 true true] ∧
  mediaContent (follow_confirmed u "Jo" (follow_confirmed u "Jo" st)) = items.
Proof.
  cbn zeta.
  assert (follows_agree (fun c => bool_decide (c = "Al"))
            [page_item "a" "Jo" 2 false false; page_item "b" "Al" 7 true true;
             page_item "c" "Jo" 0 true false]) as Hagree
    by (repeat constructor).
  split; [exact Hagree|]. split; [reflexivity|].
  exact (double_toggle_follow _ {| user_id := "u1" |} "Jo"
           (mkStore [page_item "a" "Jo" 2 false false;
                     page_item "b" "Al" 7 true true;
                     page_item "c" "Jo" 0 true false] false None false) Hagree).
Defined.

End ToggleFrame.

Section ToggleOrder.

Import MediaPage.

Lemma find_map_preserved {A} (p : A → bool) (f : A → A) (l : list A) :
  (∀ x, p (f x) = p x) → find p (map f l) = f <$> find p l.
Proof.
  intros Hp. induction l as [|x l IH]; [reflexivity|].
  cbn [map find]. rewrite Hp. destruct (p x); [reflexivity|exact IH].
Qed.

Lemma follow_patch_id c b m : id (follow_patch c b m) = id m.
Proof. unfold follow_patch. by case_bool_decide. Qed.

Lemma like_patch_creator a b m : creator_name (like_patch a b m) = creator_name m.
Proof. unfold like_patch. by case_bool_decide. Qed.

Lemma like_patch_miss a b m : id m ≠ a → like_patch a b m = m.
Proof. intros H. unfold like_patch. by rewrite bool_decide_eq_false_2. Qed.

Lemma follow_patch_miss c b m : creator_name m ≠ c → follow_patch c b m = m.
Proof. intros H. unfold follow_patch. by rewrite bool_decide_eq_false_2. Qed.

Lemma like_patch_is_following a b m :
  is_following (like_patch a b m) = is_following m.
Proof. unfold like_patch. by case_bool_decide. Qed.

Lemma follow_patch_is_liked c b m : is_liked (follow_patch c b m) = is_liked m.
Proof. unfold follow_patch. by case_bool_decide. Qed.

Lemma like_like_commute a b x y m :
  a ≠ b →
  like_patch a x (like_patch b y m) = like_patch b y (like_patch a x m).
Proof.
  intros Hab. destruct (decide (id m = a)) as [Ha|Ha].
  - assert (id m ≠ b) as Hb by congruence.
    rewrite (like_patch_miss b y m Hb).
    rewrite (like_patch_miss b y (like_patch a x m)); [done|].
    by rewrite like_patch_id.
  - rewrite (like_patch_miss a x m Ha).
    rewrite (like_patch_miss a x (like_patch b y m)); [done|].
    by rewrite like_patch_id.
Qed.

Lemma follow_follow_commute c d x y m :
  c ≠ d →
  follow_patch c x (follow_patch d y m) = follow_patch d y (follow_patch c x m).
Proof.
  intros Hcd. destruct (decide (creator_name m = c)) as [Hc|Hc].
  - assert (creator_name m ≠ d) as Hd by congruence.
    rewrite (follow_patch_miss d y m Hd).
    rewrite (follow_patch_miss d y (follow_patch c x m)); [done|].
    by rewrite follow_patch_creator.
  - rewrite (follow_patch_miss c x m Hc).
    rewrite (follow_patch_miss c x (follow_patch d y m)); [done|].
    by rewrite follow_patch_creator.
Qed.

Lemma like_follow_commute a c x y m :
  like_patch a x (follow_patch c y m) = follow_patch c y (like_patch a x m).
Proof.
  unfold like_patch, follow_patch.
  destruct (bool_decide (id m = a)) eqn:Ha,
           (bool_decide (creator_name m = c)) eqn:Hc; cbn;
    rewrite ?Ha, ?Hc; reflexivity.
Qed.

Lemma map_commute {A} (f g : A → A) (l : list A) :
  (∀ x, f (g x) = g (f x)) → map f (map g l) = map g (map f l).
Proof. intros H. rewrite !map_map. apply map_ext. exact H. Qed.

Lemma click_like_content w u a :
  mediaContent (store (step w (ClickLike (Some u) a))) =
  like_clicked a (mediaContent (store w)).
Proof.
  cbn. unfold handleLike, like_clicked, find_id.
  by destruct (find _ _).
Qed.

Lemma click_follow_content w u c :
  mediaContent (store (step w (ClickFollow (Some u) c))) =
  follow_clicked c (mediaContent (store w)).
Proof.
  cbn. unfold handleFollow, follow_clicked, find_creator.
  by destruct (find _ _).
Qed.

Lemma click_anonymous_content w target :
  mediaContent (store (step w (ClickLike None target))) = mediaContent (store w) ∧
  mediaContent (store (step w (ClickFollow None target))) = mediaContent (store w).
Proof. by split. Qed.

Lemma find_id_like_other a b y l :
  a ≠ b → find_id a (map (like_patch b y) l) = find_id a l.
Proof.
  intros Hab. unfold find_id.
  rewrite find_map_preserved by (intros x; by rewrite like_patch_id).
  destruct (find _ l) as [item|] eqn:Hf; [|reflexivity]. cbn.
  apply find_some in Hf as [_ Hid]. apply bool_decide_eq_true in Hid.
  rewrite like_patch_miss; [done|congruence].
Qed.

Lemma find_creator_follow_other c d y l :
  c ≠ d → find_creator c (map (follow_patch d y) l) = find_creator c l.
Proof.
  intros Hcd. unfold find_creator.
  rewrite find_map_preserved by (intros x; by rewrite follow_patch_creator).
  destruct (find _ l) as [item|] eqn:Hf; [|reflexivity]. cbn.
  apply find_some in Hf as [_ Hc]. apply bool_decide_eq_true in Hc.
  rewrite follow_patch_miss; [done|congruence].
Qed.

Lemma like_clicked_commute a b l :
  a ≠ b → like_clicked a (like_clicked b l) = like_clicked b (like_clicked a l).
Proof.
  intros Hab. unfold like_clicked.
  destruct (find_id a l) as [ia|] eqn:Ha, (find_id b l) as [ib|] eqn:Hb;
    rewrite ?find_id_like_other, ?Ha, ?Hb by congruence; try reflexivity.
  apply map_commute. intros m. by apply like_like_commute.
Qed.

Lemma follow_clicked_commute c d l :
  c ≠ d →
  follow_clicked c (follow_clicked d l) = follow_clicked d (follow_clicked c l).
Proof.
  intros Hcd. unfold follow_clicked.
  destruct (find_creator c l) as [ic|] eqn:Hc, (find_creator d l) as [id'|] eqn:Hd;
    rewrite ?find_creator_follow_other, ?Hc, ?Hd by congruence; try reflexivity.
  apply map_commute. intros m. by apply follow_follow_commute.
Qed.

Lemma like_follow_clicked_commute a c l :
  like_clicked a (follow_clicked c l) = follow_clicked c (like_clicked a l).
Proof.
  unfold like_clicked, follow_clicked, find_id, find_creator.
  destruct (find (fun m => bool_decide (id m = a)) l) as [ia|] eqn:Ha,
           (find (fun m => bool_decide (creator_name m = c)) l) as [ic|] eqn:Hc;
    rewrite ?find_map_preserved, ?Ha, ?Hc
      by (intros x; by rewrite ?follow_patch_id, ?like_patch_creator);
    cbn [fmap option_fmap option_map];
    rewrite ?follow_patch_is_liked, ?like_patch_is_following, ?Ha, ?Hc;
    try reflexivity.
  apply map_commute. intros m. apply like_follow_commute.
Qed.

(** Toggles on different targets are independent: the collection reached
    does not depend on the order of two like clicks on different items, of
    two follow clicks on different creators, or of a like click and a
    follow click on any targets. *)
Theorem toggles_commute (w : World) (user : option User) (a b c d : string) :
  a ≠ b → c ≠ d →
  mediaContent (store (run w [ClickLike user a; ClickLike user b])) =
  mediaContent (store (run w [ClickLike user b; ClickLike user a])) ∧
  mediaContent (store (run w [ClickFollow user c; ClickFollow user d])) =
  mediaContent (store (run w [ClickFollow user d; ClickFollow user c])) ∧
  mediaContent (store (run w [ClickLike user a; ClickFollow user c])) =
  mediaContent (store (run w [ClickFollow user c; ClickLike user a])).
Proof.
  intros Hab Hcd. unfold run. cbn [foldl].
  destruct user as [u|].
  - repeat (progress rewrite ?click_like_content, ?click_follow_content).
    split; [by apply like_clicked_commute|].
    split; [by apply follow_clicked_commute|].
    symmetry. apply like_follow_clicked_commute.
  - repeat split.
Qed.

Lemma toggles_commute_witness :
  let w := mkWorld (mkStore [page_item "a" "Jo" 2 false false;
                             page_item "b" "Jo" 5 true false] false None false)
             [] [] [] in
  let u := Some {| user_id := "u1" |} in
  "a" ≠ "b" ∧ "Jo" ≠ "Al" ∧
  mediaContent (store (run w [ClickLike u "a"; ClickFollow u "Jo"])) =
    [page_item "a" "Jo" 3 true true; page_item "b" "Jo" 5 true true] ∧
  mediaContent (store (run w [ClickFollow u "Jo"; ClickLike u "a"])) =
    [page_item "a" "Jo" 3 true true; page_item "b" "Jo" 5 true true].
Proof.
  cbn zeta.
  assert ("a" ≠ "b") as Hab by discriminate.
  assert ("Jo" ≠ "Al") as Hcd by discriminate.
  destruct (toggles_commute
              (mkWorld (mkStore [page_item "a" "Jo" 2 false false;
                                 page_item "b" "Jo" 5 true false] false None false)
                 [] [] [])
              (Some {| user_id := "u1" |}) "a" "b" "Jo" "Al" Hab Hcd)
    as (_ & _ & H).
  split; [exact Hab|]. split; [exact Hcd|].
  split; [reflexivity|]. rewrite <- H. reflexivity.
Defined.

End ToggleOrder.

(** ** The signed-out session, the Retry button and realtime events *)

Section Anonymous.

Import MediaPage.

Lemma fetch_resume_public k a st :
  is_public_fetch k = true →
  Forall unflagged (mediaContent st) →
  let '(st', k', eff) := fetch_resume k a st in
  Forall unflagged (mediaContent st') ∧
  Forall (fun e => is_public_effect e = true) eff ∧
  match k' with Some k2 => is_public_fetch k2 = true | None => True end.
Proof.
  intros Hk Hst.
  destruct k as [[u|]|[u|] md|u md al|u md al ul]; try discriminate Hk;
    destruct a as [r|r|r]; cbn -[enrich]; try by repeat split.
  - destruct r as [[[|item rest]|]|e]; cbn; repeat split;
      try assumption; repeat constructor.
  - repeat split; [apply page_enrich_public|].
    destruct (Js.error r); repeat constructor.
Qed.

Lemma step_anonymous w e :
  is_anonymous e = true →
  writes w = [] ∧
  Forall (fun x => is_public_effect x = true) (trace w) ∧
  Forall (fun k => is_public_fetch k = true) (fetches w) ∧
  Forall unflagged (mediaContent (store w)) →
  writes (step w e) = [] ∧
  Forall (fun x => is_public_effect x = true) (trace (step w e)) ∧
  Forall (fun k => is_public_fetch k = true) (fetches (step w e)) ∧
  Forall unflagged (mediaContent (store (step w e))).
Proof.
  intros He (Hw & Ht & Hf & Hc).
  destruct e as [[u|] t|[u|] t|i a|[u|] m|[u|] c|i r]; try discriminate He; cbn.
  - unfold fetchMediaContent. destruct (fetchInProgress (store w)); cbn.
    + by rewrite !app_nil_r.
    + repeat split; try assumption; apply Forall_app; split; try assumption;
        by repeat constructor.
  - unfold fetchMediaContent. destruct (fetchInProgress (store w)); cbn.
    + done.
    + repeat split; try assumption; apply Forall_app; split; try assumption;
        by repeat constructor.
  - destruct (fetches w !! i) as [k|] eqn:Hk; [|done].
    assert (is_public_fetch k = true) as Hpk.
    { rewrite Forall_forall in Hf. apply Hf. by eapply list_elem_of_lookup_2. }
    pose proof (fetch_resume_public k a (store w) Hpk Hc) as Hr.
    destruct (fetch_resume k a (store w)) as [[st' k'] eff]. cbn.
    destruct Hr as (Hc' & He' & Hk').
    split; [assumption|]. split; [by apply Forall_app|]. split; [|assumption].
    destruct k'; [by apply Forall_insert|by apply Forall_delete].
  - rewrite app_nil_r. repeat split; try assumption.
    apply Forall_app. split; [assumption|by repeat constructor].
  - rewrite app_nil_r. repeat split; try assumption.
    apply Forall_app. split; [assumption|by repeat constructor].
  - destruct (writes w !! i) as [k|] eqn:Hk; [|done].
    rewrite Hw, lookup_nil in Hk. discriminate Hk.
Qed.

(** A session without a signed-in viewer, through any sequence of fetches,
    realtime events, clicks and backend answers: no durable write is ever
    issued or left pending, no read scoped to a viewer is made, and no item
    of the collection is ever liked or followed. *)
Theorem anonymous_session (es : list Event) :
  Forall (fun e => is_anonymous e = true) es →
  writes (run initialWorld es) = [] ∧
  Forall (fun x => is_public_effect x = true) (trace (run initialWorld es)) ∧
  Forall unflagged (mediaContent (store (run initialWorld es))).
Proof.
  intros Hes.
  assert (∀ w,
            writes w = [] ∧
            Forall (fun x => is_public_effect x = true) (trace w) ∧
            Forall (fun k => is_public_fetch k = true) (fetches w) ∧
            Forall unflagged (mediaContent (store w)) →
            writes (run w es) = [] ∧
            Forall (fun x => is_public_effect x = true) (trace (run w es)) ∧
            Forall (fun k => is_public_fetch k = true) (fetches (run w es)) ∧
            Forall unflagged (mediaContent (store (run w es)))) as Hrun.
  { induction Hes as [|e es He _ IH]; intros w Hw; [exact Hw|].
    apply (IH (step w e)), step_anonymous; assumption. }
  destruct (Hrun initialWorld) as (H1 & H2 & _ & H4); [|by repeat split].
  cbn. repeat split; constructor.
Qed.

Lemma anonymous_session_witness :
  let es := [CallFetch None "stream";
             ClickLike None "a";
             SettleFetch 0 (MediaRows (Js.Resolved (Some [page_row "a" "Jo" (Some 3)])));
             SettleFetch 0 (LikeRows (Js.Resolved (Some [{| media_id := "a" |}])));
             ClickFollow None "Jo"] in
  Forall (fun e => is_anonymous e = true) es ∧
  mediaContent (store (run initialWorld es)) = [page_item "a" "Jo" 1 false false] ∧
  writes (run initialWorld es) = [].
Proof.
  cbn zeta.
  assert (Forall (fun e => is_anonymous e = true)
            [CallFetch None "stream";
             ClickLike None "a";
             SettleFetch 0 (MediaRows (Js.Resolved (Some [page_row "a" "Jo" (Some 3)])));
             SettleFetch 0 (LikeRows (Js.Resolved (Some [{| media_id := "a" |}])));
             ClickFollow None "Jo"]) as Hes by (repeat constructor).
  destruct (anonymous_session _ Hes) as (Hw & _).
  split; [exact Hes|]. split; [vm_compute; reflexivity|exact Hw].
Defined.

End Anonymous.

Section RetryAndRealtime.

Import MediaPage.

(** The Retry button.  After a fetch cycle whose content read failed, the
    error is shown and a click on Retry clears it, shows the spinner and
    issues one content read.  A click on Retry while a fetch is in flight
    (the error then comes from a failed toggle) only clears the error: no
    read is issued and nothing else changes. *)
Theorem retry_button (w w' : World) (user user' : option User)
    (activeTab activeTab' : string) (e : string)
    (lr ulr : Js.Response (list LikeRow)) (ufr : Js.Response (list FollowRow)) :
  fetchInProgress (store w) = false → fetches w = [] →
  fetchInProgress (store w') = true →
  let failed := run (step w (CallFetch user activeTab))
                  (answers (Js.Failed e) lr ulr ufr) in
  let again := MediaView.retry user' activeTab' failed in
  let during := MediaView.retry user' activeTab' w' in
  (is_Some (error (store failed)) ∧
   error (store again) = None ∧ loading (store again) = true ∧
   fetches again = [AwaitMedia user'] ∧
   trace again = trace failed ++ [Backend (SelectMedia activeTab')]) ∧
  (store during = setError None (store w') ∧
   fetches during = fetches w' ∧ writes during = writes w' ∧
   trace during = trace w').
Proof.
  intros Hidle Hnone Hbusy failed again during. split.
  - destruct w as [[mc ld er fl] fs ws tr]. cbn in Hidle, Hnone. subst.
    cbn. by eauto 10.
  - subst during. unfold MediaView.retry, MediaView.clickRetry, fetchMediaContent.
    cbn. rewrite Hbusy. cbn. by rewrite !app_nil_r.
Qed.

Lemma retry_button_witness :
  let w' := mkWorld (mkStore [] true (Some "Failed to update like. Please try again.")
                       true) [AwaitMedia None] [] [Backend (SelectMedia "stream")] in
  let failed := run (step initialWorld (CallFetch None "stream"))
                  (answers (Js.Failed "offline") (Js.Failed "") (Js.Failed "")
                     (Js.Failed "")) in
  fetchInProgress (store initialWorld) = false ∧ fetches initialWorld = [] ∧
  fetchInProgress (store w') = true ∧
  media_reads (MediaView.retry None "stream" failed) = 2%nat ∧
  trace (MediaView.retry None "stream" w') = trace w'.
Proof.
  cbn zeta.
  destruct (retry_button initialWorld
              (mkWorld (mkStore [] true
                          (Some "Failed to update like. Please try again.") true)
                 [AwaitMedia None] [] [Backend (SelectMedia "stream")])
              None None "stream" "stream" "offline" (Js.Failed "") (Js.Failed "")
              (Js.Failed "") eq_refl eq_refl eq_refl)
    as ((_ & _ & _ & _ & Ht) & (_ & _ & _ & Ht')).
  do 3 (split; [reflexivity|]). split; [|exact Ht'].
  unfold media_reads. rewrite Ht. reflexivity.
Defined.

(** A realtime event has exactly the effect of a direct call of
    [fetchMediaContent]: the test of the in-flight marker in the
    subscription callbacks repeats the one the function makes itself. *)
Theorem realtime_is_call (w : World) (user : option User) (activeTab : string) :
  step w (RealtimeChange user activeTab) = step w (CallFetch user activeTab).
Proof.
  cbn. unfold fetchMediaContent.
  destruct (fetchInProgress (store w)); [|reflexivity].
  destruct w. cbn. by rewrite !app_nil_r.
Qed.

End RetryAndRealtime.

(** ** The view: search filter, panels and channels *)

Section SearchFilter.

Import MediaPage.

Variable toLowerCase : string → string.

Lemma append_cons c (a post : string) :
  String c a +:+ post = String c (a +:+ post).
Proof. reflexivity. Qed.

Lemma prefix_spec (a s : string) :
  String.prefix a s = true ↔ ∃ post, s = a +:+ post.
Proof.
  revert s. induction a as [|c a IH]; intros s.
  - split; [intros _; by exists s|intros _; by destruct s].
  - destruct s as [|c' s]; cbn.
    + split; [done|]. intros [post Hp]. discriminate Hp.
    + destruct (Ascii.ascii_dec c c') as [->|Hne].
      * rewrite IH. split; intros [post Hp]; exists post;
          rewrite append_cons in *; congruence.
      * split; [done|]. intros [post Hp]. rewrite append_cons in Hp. congruence.
Qed.

(** [includes] is the occurrence of [sub] somewhere in [s]. *)
Lemma includes_spec (s sub : string) :
  MediaView.includes s sub = true ↔ ∃ pre post, s = pre +:+ sub +:+ post.
Proof.
  induction s as [|c s IH]; cbn [MediaView.includes].
  - rewrite orb_false_r, prefix_spec. split.
    + intros [post Hp]. by exists "", post.
    + intros (pre & post & Hp). destruct pre; [by exists post|discriminate Hp].
  - rewrite orb_true_iff, prefix_spec, IH. split.
    + intros [[post Hp]|(pre & post & Hp)].
      * by exists "", post.
      * exists (String c pre), post. rewrite append_cons. by rewrite Hp.
    + intros (pre & post & Hp). destruct pre as [|c' pre].
      * left. by exists post.
      * right. rewrite append_cons in Hp. exists pre, post. congruence.
Qed.

Lemma includes_empty s : MediaView.includes s "" = true.
Proof. apply includes_spec. by exists "", s. Qed.

Lemma filter_map_preserved {A} (p : A → bool) (f : A → A) (l : list A) :
  (∀ x, p (f x) = p x) → List.filter p (map f l) = map f (List.filter p l).
Proof.
  intros Hp. induction l as [|x l IH]; [reflexivity|].
  cbn [map List.filter]. rewrite Hp. destruct (p x); cbn [map]; by rewrite IH.
Qed.

Lemma matches_filter_display c q m m' :
  display_of m' = display_of m →
  MediaView.matches_filter toLowerCase c q m' =
  MediaView.matches_filter toLowerCase c q m.
Proof.
  intros H. unfold MediaView.matches_filter.
  assert (category m' = category m) as -> by exact (f_equal category H).
  assert (title m' = title m) as -> by exact (f_equal title H).
  assert (creator_name m' = creator_name m) as ->
    by exact (f_equal creator_name H).
  assert (description m' = description m) as ->
    by exact (f_equal description H).
  reflexivity.
Qed.

(** With the category "all" and an empty search box the filter lets the
    whole collection through, in order (the lower-cased empty query is the
    empty string, which occurs in every title). *)
Theorem filter_all_shows_everything (mediaContent : list MediaItem) :
  toLowerCase "" = "" →
  MediaView.filteredContent toLowerCase "all" "" mediaContent = mediaContent.
Proof.
  intros Hlow. unfold MediaView.filteredContent.
  induction mediaContent as [|m rest IH]; [reflexivity|].
  cbn [List.filter]. unfold MediaView.matches_filter at 1.
  rewrite Hlow, includes_empty. cbn. by rewrite IH.
Qed.

(** The filter looks at display fields only: a like or follow click never
    makes a card appear or disappear, and filtering the enriched rows gives
    the enrichment of the filtered rows. *)
Theorem filter_ignores_engagement (w : World) (user : option User)
    (target selectedCategory searchQuery : string)
    (rows : list MediaItem) (allLikes : option (list LikeRow))
    (userLikes : list LikeRow) (userFollows : list FollowRow) :
  let shown := MediaView.filteredContent toLowerCase selectedCategory searchQuery in
  map id (shown (mediaContent (store (step w (ClickLike user target))))) =
    map id (shown (mediaContent (store w))) ∧
  map id (shown (mediaContent (store (step w (ClickFollow user target))))) =
    map id (shown (mediaContent (store w))) ∧
  shown (enrich rows allLikes userLikes userFollows) =
    enrich (shown rows) allLikes userLikes userFollows.
Proof.
  intros shown. subst shown. unfold MediaView.filteredContent.
  split; [|split].
  - cbn. unfold handleLike. destruct user; [|reflexivity].
    destruct (find _ _) as [found|]; [|reflexivity]. cbn.
    rewrite filter_map_preserved, map_map.
    + apply map_ext. intros m. apply like_patch_id.
    + intros m. apply matches_filter_display.
      unfold like_patch. by case_bool_decide.
  - cbn. unfold handleFollow. destruct user; [|reflexivity].
    destruct (find _ _) as [found|]; [|reflexivity]. cbn.
    rewrite filter_map_preserved, map_map.
    + apply map_ext. intros m. apply follow_patch_id.
    + intros m. apply matches_filter_display.
      unfold follow_patch. by case_bool_decide.
  - unfold enrich. apply filter_map_preserved.
    intros m. by apply matches_filter_display.
Qed.

(** What the page shows around a failed fetch.  While the fetch is in
    flight: the spinner, no error banner, no empty-state panel.  Once the
    content read has failed: the error banner and, whatever the filter, the
    empty-state panel, because the collection was emptied; no spinner. *)
Theorem view_around_failed_fetch (w : World) (user : option User)
    (activeTab selectedCategory searchQuery e : string)
    (lr ulr : Js.Response (list LikeRow)) (ufr : Js.Response (list FollowRow)) :
  fetchInProgress (store w) = false → fetches w = [] →
  let during := step w (CallFetch user activeTab) in
  let failed := run during (answers (Js.Failed e) lr ulr ufr) in
  (MediaView.shows_spinner (store during) = true ∧
   MediaView.shows_error (store during) = false ∧
   MediaView.shows_empty toLowerCase selectedCategory searchQuery (store during)
     = false) ∧
  (MediaView.shows_spinner (store failed) = false ∧
   MediaView.shows_error (store failed) = true ∧
   MediaView.shows_empty toLowerCase selectedCategory searchQuery (store failed)
     = true).
Proof.
  destruct w as [[mc ld er fl] fs ws tr]. cbn. intros -> ->. by cbn.
Qed.

End SearchFilter.

Section ViewWitnesses.

Import MediaPage.

Lemma filter_all_shows_everything_witness :
  let items := [page_item "a" "Jo" 2 false false; page_item "b" "Al" 7 true true] in
  (fun s : string => s) "" = "" ∧
  MediaView.filteredContent (fun s => s) "all" "" items = items.
Proof.
  cbn zeta. split; [reflexivity|].
  exact (filter_all_shows_everything (fun s => s)
           [page_item "a" "Jo" 2 false false; page_item "b" "Al" 7 true true]
           eq_refl).
Defined.

Lemma view_around_failed_fetch_witness :
  let w := mkWorld (mkStore [page_item "a" "Jo" 2 false false] false None false)
             [] [] [] in
  let failed := run (step w (CallFetch None "stream"))
                  (answers (Js.Failed "offline") (Js.Failed "") (Js.Failed "")
                     (Js.Failed "")) in
  fetchInProgress (store w) = false ∧ fetches w = [] ∧
  MediaView.shows_error (store failed) = true ∧
  MediaView.shows_empty (fun s => s) "all" "" (store failed) = true.
Proof.
  cbn zeta.
  destruct (view_around_failed_fetch (fun s => s)
              (mkWorld (mkStore [page_item "a" "Jo" 2 false false] false None false)
                 [] [] [])
              None "stream" "all" "" "offline" (Js.Failed "") (Js.Failed "")
              (Js.Failed "") eq_refl eq_refl) as (_ & _ & He & Hem).
  do 2 (split; [reflexivity|]). split; [exact He|exact Hem].
Defined.

(** The realtime channels: none is opened without a signed-in user; for a
    signed-in user the like channel and the follow channel of a tab have
    different names, and the channels of two different tabs have four
    different names, so the subscriptions of the tab left and of the tab
    entered never share a channel. *)
Theorem channels_distinct (u u' : User) (activeTab activeTab' : string) :
  activeTab ≠ activeTab' →
  MediaView.subscriptions None activeTab = [] ∧
  NoDup (MediaView.subscriptions (Some u) activeTab ++
         MediaView.subscriptions (Some u') activeTab').
Proof.
  intros Hne. split; [reflexivity|].
  unfold MediaView.subscriptions, MediaView.likes_channel,
    MediaView.follows_channel. cbv [String.append app].
  repeat constructor; rewrite ?elem_of_cons, ?elem_of_nil;
    intros H; repeat destruct H as [H|H]; try done;
    try discriminate H; injection H as H; by apply Hne.
Qed.

Lemma channels_distinct_witness :
  "stream" ≠ "blog" ∧
  MediaView.subscriptions (Some {| user_id := "u1" |}) "stream" =
    ["media_likes_changes_stream"; "creator_follows_changes_stream"] ∧
  NoDup (MediaView.subscriptions (Some {| user_id := "u1" |}) "stream" ++
         MediaView.subscriptions (Some {| user_id := "u1" |}) "blog").
Proof.
  assert ("stream" ≠ "blog") as Hne by discriminate.
  split; [exact Hne|]. split; [reflexivity|].
  exact (proj2 (channels_distinct {| user_id := "u1" |} {| user_id := "u1" |}
                  "stream" "blog" Hne)).
Defined.

End ViewWitnesses.

(** ** The hook's fetches *)

Section HookFetches.

Import UseMediaData.
Import HookLoop.

Lemma hook_call_step w type userId :
  step w (Call type userId) =
  mkWorld (setError None (setLoading true (store w)))
    (fetches w ++ [AwaitItems userId])
    (trace w ++ [Backend (SelectItems type)]).
Proof. reflexivity. Qed.

(** The hook has no in-flight marker: every call of [fetchMediaItems]
    issues its own content read and leaves one more fetch suspended, however
    many are already in flight; the items are not touched by the calls. *)
Theorem hook_calls_all_read (w : World) (calls : list Event) :
  Forall (fun e => is_call e = true) calls →
  item_reads (run w calls) = (item_reads w + length calls)%nat ∧
  length (fetches (run w calls)) = (length (fetches w) + length calls)%nat ∧
  mediaItems (store (run w calls)) = mediaItems (store w).
Proof.
  intros Hcalls. revert w.
  induction Hcalls as [|e calls He _ IH]; intros w.
  - cbn. by rewrite !Nat.add_0_r.
  - destruct e as [type userId|]; [|discriminate He].
    unfold run in *. cbn [foldl]. destruct (IH (step w (Call type userId)))
      as (Hr & Hl & Hm).
    rewrite Hr, Hl, Hm, hook_call_step. unfold item_reads. cbn.
    rewrite List.filter_app, !length_app. cbn. repeat split; lia.
Qed.

Lemma hook_calls_all_read_witness :
  let calls := [Call "stream" None; Call "stream" None; Call "stream" (Some "u1")] in
  Forall (fun e => is_call e = true) calls ∧
  item_reads (run initialWorld calls) = 3%nat ∧
  length (fetches (run initialWorld calls)) = 3%nat.
Proof.
  cbn zeta.
  assert (Forall (fun e => is_call e = true)
            [Call "stream" None; Call "stream" None; Call "stream" (Some "u1")])
    as Hc by (repeat constructor).
  destruct (hook_calls_all_read initialWorld _ Hc) as (Hr & Hl & _).
  split; [exact Hc|]. split; [exact Hr|exact Hl].
Defined.

(** Two overlapping fetches of the hook: when the one that was called
    second completes first and the one called first completes last, the
    items shown in the end are those of the first call, and the loading flag
    is already off while the first call is still in flight. *)
Theorem hook_last_completion_wins (w : World)
    (typeA typeB : string) (userA userB : option string)
    (itemA itemB : MediaItem) (restA restB : list MediaItem)
    (likesA likesB : Js.Response (list LikeRow))
    (followsA followsB : Js.Response (list FollowRow)) :
  fetches w = [] →
  let started :=
    run w [Call typeA userA; Call typeB userB;
           Settle 0 (ItemRows (Js.Resolved (Some (itemA :: restA))));
           Settle 1 (ItemRows (Js.Resolved (Some (itemB :: restB))));
           Settle 0 (LikeRows likesA); Settle 1 (LikeRows likesB)] in
  let second_done := step started (Settle 1 (FollowRows followsB)) in
  let first_done := step second_done (Settle 0 (FollowRows followsA)) in
  (mediaItems (store second_done) =
     enrich userB (itemB :: restB) (Js.data likesB) (Js.data followsB) ∧
   loading (store second_done) = false ∧
   length (fetches second_done) = 1%nat) ∧
  (mediaItems (store first_done) =
     enrich userA (itemA :: restA) (Js.data likesA) (Js.data followsA) ∧
   fetches first_done = []).
Proof.
  destruct w as [st fs tr]. cbn -[enrich]. intros ->. cbn -[enrich].
  by repeat split.
Qed.

Lemma hook_last_completion_wins_witness :
  let old_rows := Js.Resolved (Some [hook_row "a" "Jo" (Some 1)]) in
  let new_rows := Js.Resolved (Some [hook_row "a" "Jo" (Some 2)]) in
  let none_l : Js.Response (list LikeRow) := Js.Resolved None in
  let none_f : Js.Response (list FollowRow) := Js.Resolved None in
  let final :=
    run initialWorld
      [Call "stream" None; Call "stream" None;
       Settle 0 (ItemRows old_rows); Settle 1 (ItemRows new_rows);
       Settle 0 (LikeRows none_l); Settle 1 (LikeRows none_l);
       Settle 1 (FollowRows none_f); Settle 0 (FollowRows none_f)] in
  fetches initialWorld = [] ∧
  map like_count (mediaItems (store final)) = [Some 1].
Proof.
  cbn zeta. split; [reflexivity|].
  destruct (hook_last_completion_wins initialWorld "stream" "stream" None None
              (hook_row "a" "Jo" (Some 1)) (hook_row "a" "Jo" (Some 2)) [] []
              (Js.Resolved None) (Js.Resolved None) (Js.Resolved None)
              (Js.Resolved None) eq_refl) as (_ & Hfinal & _).
  unfold run in *. cbn [foldl] in *. rewrite Hfinal. vm_compute. reflexivity.
Defined.

(** One fetch cycle of the hook with nothing else in flight.  The error is
    set exactly when the content read reports an error, and the items are
    then emptied; errors of the like and follow reads are neither shown nor
    logged, and enrichment runs on whatever they delivered.  When rows are
    delivered the like and follow reads are both made, unfiltered, also
    without a viewer. *)
Theorem hook_cycle (w : World) (type : string) (userId : option string)
    (ir : Js.Response (list MediaItem)) (lr : Js.Response (list LikeRow))
    (fr : Js.Response (list FollowRow)) :
  fetches w = [] →
  let w2 := run (step w (Call type userId)) (hook_answers ir lr fr) in
  fetches w2 = [] ∧
  store w2 =
    match ir with
    | Js.Failed _ => mkStore [] false (Some "Failed to load media items")
    | Js.Resolved (Some (item :: rest)) =>
        mkStore (enrich userId (item :: rest) (Js.data lr) (Js.data fr))
          false None
    | Js.Resolved _ => mkStore [] false None
    end ∧
  trace w2 =
    trace w ++ Backend (SelectItems type) ::
    match ir with
    | Js.Failed _ => [ConsoleError "Error fetching media items:"]
    | Js.Resolved (Some (_ :: _)) => [Backend SelectLikes; Backend SelectFollows]
    | Js.Resolved _ => []
    end.
Proof.
  destruct w as [st fs tr]. cbn -[enrich]. intros ->.
  destruct ir as [[[|item rest]|]|e]; cbn -[enrich];
    rewrite <- ?app_assoc; by repeat split.
Qed.

Lemma hook_cycle_witness :
  let w2 := run (step initialWorld (Call "stream" (Some "u1")))
              (hook_answers (Js.Resolved (Some [hook_row "a" "Jo" (Some 4)]))
                 (Js.Failed "denied") (Js.Failed "denied")) in
  fetches initialWorld = [] ∧
  error (store w2) = None ∧
  trace w2 = [Backend (SelectItems "stream"); Backend SelectLikes;
              Backend SelectFollows] ∧
  map like_count (mediaItems (store w2)) = [Some 4].
Proof.
  cbn zeta. split; [reflexivity|].
  destruct (hook_cycle initialWorld "stream" (Some "u1")
              (Js.Resolved (Some [hook_row "a" "Jo" (Some 4)]))
              (Js.Failed "denied") (Js.Failed "denied") eq_refl)
    as (_ & Hs & Ht).
  rewrite Hs, Ht. split; [reflexivity|]. split; [reflexivity|].
  vm_compute. reflexivity.
Defined.

End HookFetches.

(** ** The auth context *)

Section AuthContext.

Import Auth.

Variable Updates : Type.

(** [signOut], [updateProfile] and [signIn] change nothing when they throw:
    whenever one of them ends by throwing, the user, the session and the
    loading flag are the ones it started with. *)
Theorem auth_failure_keeps_state (st : State) (updates : Updates)
    (email password : string) (o : Settled unit) (oa : Settled AuthData)
    (op : Settled Profile) (ol : Settled unit) :
  (is_Some (signOut Updates o st).2 → (signOut Updates o st).1.1 = st) ∧
  (is_Some (updateProfile Updates updates o op st).2 →
   (updateProfile Updates updates o op st).1.1 = st) ∧
  (is_Some (signIn Updates email password oa op ol st).2 →
   (signIn Updates email password oa op ol st).1.1 = st).
Proof.
  split; [|split].
  - unfold signOut. destruct (raised o); cbn; [done|]. by intros [? ?].
  - unfold updateProfile. destruct (user st); cbn; [|by intros [? ?]].
    destruct (raised o); cbn; [done|].
    destruct (fetchProfile _ _ _). cbn. by intros [? ?].
  - unfold signIn. destruct (raised oa); cbn; [done|].
    destruct oa as [[[data|]|]|]; cbn; try done.
    destruct (auth_user_id data); cbn; [|by intros [? ?]].
    destruct (fetchProfile _ _ _). cbn. by intros [? ?].
Qed.

(** A profile update that the backend accepts but whose re-read fails
    leaves the context without a user while the session is kept; the media
    page then sees no viewer, so a click on a like button only asks to sign
    in and issues no write. *)
Theorem update_profile_reread_failure (st : State) (p : Profile)
    (updates : Updates) (o : Settled unit) (reread : Settled Profile)
    (page : MediaPage.Store) (mediaId : string) :
  user st = Some p → raised o = None → is_Some (raised reread) →
  let '(st', eff, thrown) := updateProfile Updates updates o reread st in
  thrown = None ∧ user st' = None ∧ session st' = session st ∧
  viewer st = Some {| MediaPage.user_id := id p |} ∧ viewer st' = None ∧
  MediaPage.handleLike (viewer st') (MediaPage.mediaContent page) mediaId page =
    (page, None,
     [MediaPage.Alert "Please sign in to like content.";
      MediaPage.Navigate "/signin"]).
Proof.
  intros Hu Ho [e He]. unfold updateProfile, fetchProfile, viewer.
  rewrite Hu, Ho, He. cbn. by repeat split.
Qed.

(** When the password sign-in succeeds, the user set and the result of
    [signIn] do not depend on the outcome of the last-login update that
    follows: its failure is only logged. *)
Theorem sign_in_ignores_last_login (st : State) (email password : string)
    (oa : Settled AuthData) (profile : Settled Profile)
    (login login' : Settled unit) :
  raised oa = None →
  (signIn Updates email password oa profile login st).1.1 =
  (signIn Updates email password oa profile login' st).1.1 ∧
  (signIn Updates email password oa profile login st).2 =
  (signIn Updates email password oa profile login' st).2.
Proof.
  intros Ho. unfold signIn. rewrite Ho.
  destruct oa as [[[data|]|]|]; cbn; try done.
  destruct (auth_user_id data); cbn; [|done].
  by destruct (fetchProfile _ _ _).
Qed.

End AuthContext.

Section AuthWitnesses.

Import Auth.

Lemma update_profile_reread_failure_witness :
  let p := mkProfile "u1" "Jo" "jo@example.org" creator free 0 None None "" "" in
  let st := mkState (Some p) (Some {| session_user_id := "u1" |}) false in
  let page := MediaPage.mkStore [page_item "a" "Jo" 2 false false] false None false in
  user st = Some p ∧
  raised (Fulfilled (Js.Resolved (Some tt))) = None ∧
  is_Some (raised (Rejected "offline" : Settled Profile)) ∧
  user (updateProfile unit tt (Fulfilled (Js.Resolved (Some tt)))
          (Rejected "offline") st).1.1 = None ∧
  session (updateProfile unit tt (Fulfilled (Js.Resolved (Some tt)))
             (Rejected "offline") st).1.1 = Some {| session_user_id := "u1" |}.
Proof.
  cbn zeta.
  pose proof (update_profile_reread_failure unit
                (mkState (Some (mkProfile "u1" "Jo" "jo@example.org" creator free
                                  0 None None "" ""))
                   (Some {| session_user_id := "u1" |}) false)
                (mkProfile "u1" "Jo" "jo@example.org" creator free 0 None None "" "")
                tt (Fulfilled (Js.Resolved (Some tt))) (Rejected "offline")
                (MediaPage.mkStore [page_item "a" "Jo" 2 false false] false None false)
                "a" eq_refl eq_refl (ex_intro _ "offline" eq_refl)) as H.
  split; [reflexivity|]. split; [reflexivity|].
  split; [by exists "offline"|].
  destruct (updateProfile _ _ _ _ _) as [[st' eff] thrown].
  destruct H as (_ & Hu & Hs & _). split; [exact Hu|exact Hs].
Defined.

Lemma sign_in_ignores_last_login_witness :
  let p := mkProfile "u1" "Jo" "jo@example.org" creator free 0 None None "" "" in
  let st := mkState None None false in
  let oa := Fulfilled (Js.Resolved (Some {| auth_user_id := Some "u1" |})) in
  let op := Fulfilled (Js.Resolved (Some p)) in
  raised oa = None ∧
  (signIn unit "jo@example.org" "pw" oa op (Rejected "offline") st).1.1 =
  mkState (Some p) None false ∧
  (signIn unit "jo@example.org" "pw" oa op (Rejected "offline") st).2 = None.
Proof.
  cbn zeta.
  destruct (sign_in_ignores_last_login unit (mkState None None false)
              "jo@example.org" "pw"
              (Fulfilled (Js.Resolved (Some {| auth_user_id := Some "u1" |})))
              (Fulfilled (Js.Resolved
                 (Some (mkProfile "u1" "Jo" "jo@example.org" creator free 0
                          None None "" ""))))
              (Rejected "offline") (Fulfilled (Js.Resolved None)) eq_refl)
    as [Hs Ht].
  split; [reflexivity|]. rewrite Hs, Ht. split; reflexivity.
Defined.

End AuthWitnesses.

(** ** A rollback after a fetch *)

Section RollbackAfterFetch.

Import MediaPage.

(** A rollback wins over a fetch that completed in between: when a like
    click has patched the collection, a whole fetch cycle then replaces it
    with fresh rows, and the durable write of the click finally fails, the
    collection is again the one the click found, not the fetched one, and
    the error of the like is shown. *)
Theorem rollback_discards_fetch (w : World) (u : User) (mediaId : string)
    (item : MediaItem) (user : option User) (activeTab e : string)
    (mr : Js.Response (list MediaItem)) (lr ulr : Js.Response (list LikeRow))
    (ufr : Js.Response (list FollowRow)) :
  fetchInProgress (store w) = false → fetches w = [] →
  find_id mediaId (mediaContent (store w)) = Some item →
  let clicked := step w (ClickLike (Some u) mediaId) in
  let fetched := run (step clicked (CallFetch user activeTab))
                   (answers mr lr ulr ufr) in
  let failed := step fetched (SettleWrite (length (writes w)) (Js.Failed e)) in
  store fetched = cycle_outcome user mr lr ulr ufr ∧
  mediaContent (store failed) = mediaContent (store w) ∧
  error (store failed) = Some "Failed to update like. Please try again." ∧
  writes failed = writes w.
Proof.
  intros Hidle Hnone Hfind clicked fetched failed.
  assert (store clicked =
            setMediaContent
              (map (like_patch mediaId (Js.truthy (is_liked item)))
                 (mediaContent (store w))) (store w) ∧
          fetches clicked = [] ∧
          writes clicked = writes w ++ [LikeWrite (mediaContent (store w))])
    as (Hsc & Hfc & Hwc).
  { subst clicked. cbn. unfold handleLike.
    fold (find_id mediaId (mediaContent (store w))). by rewrite Hfind. }
  assert (fetchInProgress (store clicked) = false) as Hidle'
    by (by rewrite Hsc).
  destruct (cycle_store clicked user activeTab mr lr ulr ufr Hidle' Hfc)
    as (Hs & _ & Hw).
  fold fetched in Hs, Hw. split; [exact Hs|].
  subst failed. clearbody fetched. destruct fetched as [sf ff wf tf].
  rewrite Hwc in Hw. cbn [writes] in Hw. subst wf.
  cbn. rewrite list_lookup_middle by done. cbn.
  repeat split. rewrite delete_middle. apply app_nil_r.
Qed.

Lemma rollback_discards_fetch_witness :
  let w := mkWorld (mkStore [page_item "a" "Jo" 2 false false] false None false)
             [] [] [] in
  let u := {| user_id := "u1" |} in
  let events :=
    [ClickLike (Some u) "a"; CallFetch (Some u) "stream";
     SettleFetch 0 (MediaRows (Js.Resolved (Some [page_row "a" "Jo" None])));
     SettleFetch 0 (LikeRows (Js.Resolved (Some [{| media_id := "a" |};
                                                 {| media_id := "a" |};
                                                 {| media_id := "a" |}])));
     SettleFetch 0 (LikeRows (Js.Resolved (Some [{| media_id := "a" |}])));
     SettleFetch 0 (FollowRows (Js.Resolved None))] in
  fetchInProgress (store w) = false ∧ fetches w = [] ∧
  find_id "a" (mediaContent (store w)) = Some (page_item "a" "Jo" 2 false false) ∧
  mediaContent (store (run w events)) = [page_item "a" "Jo" 3 true false] ∧
  mediaContent (store (run w (events ++ [SettleWrite 0 (Js.Failed "offline")]))) =
    [page_item "a" "Jo" 2 false false].
Proof.
  cbn zeta. do 3 (split; [reflexivity|]). split; [vm_compute; reflexivity|].
  destruct (rollback_discards_fetch
              (mkWorld (mkStore [page_item "a" "Jo" 2 false false] false None false)
                 [] [] [])
              {| user_id := "u1" |} "a" (page_item "a" "Jo" 2 false false)
              (Some {| user_id := "u1" |}) "stream" "offline"
              (Js.Resolved (Some [page_row "a" "Jo" None]))
              (Js.Resolved (Some [{| media_id := "a" |}; {| media_id := "a" |};
                                  {| media_id := "a" |}]))
              (Js.Resolved (Some [{| media_id := "a" |}]))
              (Js.Resolved None) eq_refl eq_refl eq_refl) as (_ & Hc & _).
  exact Hc.
Defined.

End RollbackAfterFetch.
